(** * skyalignments: alignments between waypoint bearings and seasonal
      rise/set azimuths

    A shallow embedding of [skyalignments.py].

    Numbers.  Every Python [float] (and every [ephem.Date], which is a
    subclass of [float]) is a real number here: rounding, NaN and signed
    zeros are outside the model.  So are infinities, with one exception:
    [angle_between_float] follows the one operation of [angle_between]
    that takes finite floats to an infinity.

    Effects.  [ephem.Observer] is a mutable object; the functions below take
    the observer and hand back the observer they leave behind.  An exception
    is a value of [exn], threaded through [Result]. *)

From Stdlib Require Import Reals Lra Lia List String Ascii ZArith Bool DecimalString.
Import ListNotations.
Open Scope R_scope.

(** ** Python values used by the script *)

Inductive exn : Type :=
| ValueError (msg : string)
| TypeError (msg : string)
| EphemError (msg : string).

Inductive Result (A : Type) : Type :=
| Ok (a : A)
| Raise (e : exn).
Arguments Ok {A} a.
Arguments Raise {A} e.

Definition bind {A B : Type} (r : Result A) (k : A -> Result B) : Result B :=
  match r with
  | Ok a => k a
  | Raise e => Raise e
  end.

Notation "x <- r ;; k" := (bind r (fun x => k))
  (at level 61, r at next level, right associativity).

(** Truth value of an optional float: [None] and [0.0] are false. *)
Definition truthy_float (d : option R) : bool :=
  match d with
  | None => false
  | Some x => if Req_dec_T x 0 then false else true
  end.

(** A [dict] with string keys, in insertion order. *)
Definition dict (V : Type) : Type := list (string * V).

Fixpoint dict_set {V : Type} (m : dict V) (k : string) (v : V) : dict V :=
  match m with
  | [] => [(k, v)]
  | (k', v') :: rest =>
      if String.eqb k' k then (k', v) :: rest else (k', v') :: dict_set rest k v
  end.

Fixpoint dict_get {V : Type} (m : dict V) (k : string) : option V :=
  match m with
  | [] => None
  | (k', v') :: rest => if String.eqb k' k then Some v' else dict_get rest k
  end.

(** ** The ephemeris provider (the [ephem] module) *)

Record Observer : Type := mkObserver {
  obs_lat : R;
  obs_lon : R;
  obs_elevation : R;
  obs_date : R
}.

Definition set_date (o : Observer) (d : R) : Observer :=
  mkObserver (obs_lat o) (obs_lon o) (obs_elevation o) d.

Inductive Body : Type := Sun | Moon.

(** [ephem.degree]: radians in one degree. *)
Definition degree : R := PI / 180.

(** What the script asks of [ephem].  The four rise/set queries read the
    observer (place and date) and may raise for a body that never crosses
    the horizon; [compute] is [obj.compute(observer)] followed by reading
    [obj.az], in radians; [Date_jan1 y] is [ephem.Date('1/1/%d' % y)]. *)
Class Ephemeris : Type := {
  previous_rising : Observer -> Body -> Result R;
  next_rising : Observer -> Body -> Result R;
  previous_setting : Observer -> Body -> Result R;
  next_setting : Observer -> Body -> Result R;
  compute : Body -> Observer -> R;
  previous_full_moon : R -> R;
  next_full_moon : R -> R;
  next_equinox : R -> R;
  next_solstice : R -> R;
  Date_jan1 : Z -> R
}.

(** What the dates that an ephemeris answers have in common, with room to
    spare: a rising or setting is found within a day and a half of the
    observer's date, on the side asked for; a full moon within 30 days; an
    equinox or solstice after the instant asked about and within 190 days
    of it, the same one for every instant up to it; and no equinox lies
    within 80 days of a solstice. *)
Record ephemeris_contract (E : Ephemeris) : Prop := {
  previous_rising_near : forall o b t,
    previous_rising o b = Ok t -> obs_date o - 3 / 2 <= t <= obs_date o;
  next_rising_near : forall o b t,
    next_rising o b = Ok t -> obs_date o <= t <= obs_date o + 3 / 2;
  previous_setting_near : forall o b t,
    previous_setting o b = Ok t -> obs_date o - 3 / 2 <= t <= obs_date o;
  next_setting_near : forall o b t,
    next_setting o b = Ok t -> obs_date o <= t <= obs_date o + 3 / 2;
  previous_full_moon_near : forall t,
    t - 30 <= previous_full_moon t <= t;
  next_full_moon_near : forall t,
    t <= next_full_moon t <= t + 30;
  next_equinox_near : forall t, t < next_equinox t <= t + 190;
  next_solstice_near : forall t, t < next_solstice t <= t + 190;
  next_equinox_same : forall t u,
    t <= u < next_equinox t -> next_equinox u = next_equinox t;
  next_solstice_same : forall t u,
    t <= u < next_solstice t -> next_solstice u = next_solstice t;
  seasons_apart : forall t u,
    80 <= Rabs (next_equinox t - next_solstice u)
}.

(** ** nearest_time, find_rise_set, find_azimuths *)

Definition nearest_time (targettime t1 t2 : R) : R :=
  let d1 := Rabs (targettime - t1) in
  let d2 := Rabs (targettime - t2) in
  if Rle_dec d1 d2 then d1 else d2.

Section Resolver.
Context {E : Ephemeris}.

Definition find_rise_set (observer : Observer) (obj : Body) (d : option R)
  : Result (Observer * dict R) :=
  let observer :=
    match d with
    | Some d' => if truthy_float d then set_date observer d' else observer
    | None => observer
    end in
  prevrise <- previous_rising observer obj ;;
  nextrise <- next_rising observer obj ;;
  prevset <- previous_setting observer obj ;;
  nextset <- next_setting observer obj ;;
  let risetime := nearest_time (obs_date observer) prevrise nextrise in
  let observer := set_date observer risetime in
  let rise_az := compute obj observer in
  let settime := nearest_time (obs_date observer) prevset nextset in
  let observer := set_date observer settime in
  let set_az := compute obj observer in
  Ok (observer, [("rise"%string, rise_az / degree);
                 ("set"%string, set_az / degree)]).

(** [now] is the value [ephem.now()] returns inside this call. *)
Definition find_azimuths (now : R) (observer : Observer)
  : Result (Observer * dict (dict R)) :=
  let riseset : dict (dict R) := [] in
  r <- find_rise_set observer Sun None ;;
  let '(observer, sun) := r in
  let riseset := dict_set riseset "sun" sun in
  let lastfull := previous_full_moon (obs_date observer) in
  let nextfull := next_full_moon (obs_date observer) in
  let observer :=
    if Rgt_dec (now - lastfull) (nextfull - now)
    then set_date observer nextfull
    else set_date observer lastfull in
  r <- find_rise_set observer Moon None ;;
  let '(observer, moon) := r in
  let riseset := dict_set riseset "full moon" moon in
  Ok (observer, riseset).

End Resolver.

(** ** angle_between *)

(** A waypoint is the Python list [[name, lat, lon, ele]]. *)
Record Waypoint : Type := mkWaypoint {
  wp_name : string;
  wp_lat : R;
  wp_lon : R;
  wp_ele : R
}.

(** [math.atan2(y, x)], with values in (-PI, PI]. *)
Definition atan2 (y x : R) : R :=
  if Rlt_dec 0 x then atan (y / x)
  else if Rlt_dec x 0 then
    if Rle_dec 0 y then atan (y / x) + PI else atan (y / x) - PI
  else if Rlt_dec 0 y then PI / 2
  else if Rlt_dec y 0 then - (PI / 2)
  else 0.

(** [x % y] on floats: the remainder of the floored quotient. *)
Definition float_mod (x y : R) : R := x - y * IZR (Int_part (x / y)).

Definition angle_between (wp1 wp2 : Waypoint) : R :=
  let lat1 := wp_lat wp1 in
  let lon1 := wp_lon wp1 in
  let lat2 := wp_lat wp2 in
  let lon2 := wp_lon wp2 in
  let dlon := lon2 - lon1 in
  let y := sin dlon * cos lat2 in
  let x := cos lat1 * sin lat2 - sin lat1 * cos lat2 * cos dlon in
  float_mod (360 - atan2 y x / degree) 360.

(** Floats at their limits.  The largest finite float is 2^1024 - 2^971; a
    difference whose exact value reaches 2^1024 - 2^970 in magnitude is
    rounded to an infinity. *)
Definition float_max : R := IZR (2 ^ 1024 - 2 ^ 971).

Definition float_overflow : R := IZR (2 ^ 1024 - 2 ^ 970).

Definition finite_float (x : R) : Prop := Rabs x <= float_max.

(** [a - b] on two finite floats; [None] is an infinity. *)
Definition float_sub (a b : R) : option R :=
  if Rlt_dec (Rabs (a - b)) float_overflow then Some (a - b) else None.

(** [math.sin] and [math.cos] raise on an infinity. *)
Definition math_sin (x : option R) : Result R :=
  match x with
  | Some v => Ok (sin v)
  | None => Raise (ValueError "math domain error")
  end.

Definition math_cos (x : option R) : Result R :=
  match x with
  | Some v => Ok (cos v)
  | None => Raise (ValueError "math domain error")
  end.

(** [angle_between] as the interpreter runs it on finite floats.  The
    subtraction of line 78 is the one operation of lines 76-82 that can
    leave the finite floats, and [math.sin] of line 79 is the first to
    meet its result; everywhere else the value is that of [angle_between]
    above. *)
Definition angle_between_float (wp1 wp2 : Waypoint) : Result R :=
  let lat1 := wp_lat wp1 in
  let lon1 := wp_lon wp1 in
  let lat2 := wp_lat wp2 in
  let lon2 := wp_lon wp2 in
  let dlon := float_sub lon2 lon1 in
  sin_dlon <- math_sin dlon ;;
  let y := sin_dlon * cos lat2 in
  cos_dlon <- math_cos dlon ;;
  let x := cos lat1 * sin lat2 - sin lat1 * cos lat2 * cos_dlon in
  Ok (float_mod (360 - atan2 y x / degree) 360).

(** ** find_alignments *)

(** [wp1 == wp2] on two waypoint lists: equal field by field. *)
Definition waypoint_eqb (a b : Waypoint) : bool :=
  String.eqb (wp_name a) (wp_name b)
  && (if Req_dec_T (wp_lat a) (wp_lat b) then true else false)
  && (if Req_dec_T (wp_lon a) (wp_lon b) then true else false)
  && (if Req_dec_T (wp_ele a) (wp_ele b) then true else false).

(** How many degrees is close enough? *)
Definition DEGREESLOP : R := 2.

(** One entry of [matches]: [[wp1[0], wp2[0], '%s %s%s' % (season, body, event)]]. *)
Definition Match : Type := (string * string * string)%type.

Definition match_label (season body event : string) : string :=
  (season ++ " " ++ body ++ event)%string.

(** The three loops over [azimuths] for one bearing.  [for k in d] followed
    by [d[k]] walks the items of the dict in insertion order. *)
Definition angle_matches (azimuths : dict (dict (dict R)))
    (n1 n2 : string) (angle : R) : list Match :=
  flat_map (fun '(season, bodies) =>
    flat_map (fun '(body, events) =>
      flat_map (fun '(event, az) =>
        if Rlt_dec (Rabs (az - angle)) DEGREESLOP
        then [(n1, n2, match_label season body event)]
        else [])
      (events : dict R))
    (bodies : dict (dict R)))
  azimuths.

(** The two loops over [waypoints]. *)
Definition find_matches (azimuths : dict (dict (dict R)))
    (waypoints : list Waypoint) : list Match :=
  flat_map (fun wp1 =>
    flat_map (fun wp2 =>
      if waypoint_eqb wp1 wp2 then []
      else
        let angle := angle_between wp1 wp2 in
        angle_matches azimuths (wp_name wp1) (wp_name wp2) angle)
    waypoints)
  waypoints.

(** The pairs for which the loops reach [angle_between], in order. *)
Definition enumerated_pairs (waypoints : list Waypoint)
  : list (Waypoint * Waypoint) :=
  flat_map (fun wp1 =>
    flat_map (fun wp2 =>
      if waypoint_eqb wp1 wp2 then [] else [(wp1, wp2)])
    waypoints)
  waypoints.

Section Aggregator.
Context {E : Ephemeris}.

(** Lines 90-106: the table of azimuths.  [clock k] is what the k-th call
    of [ephem.now()] returns.  The last component is not in the script: it
    lists [observer.date] as it stands at each of the four calls of
    [find_azimuths], that is, the four seasonal instants. *)
Definition season_azimuths (clock : nat -> R) (observer : Observer)
    (start_date : R)
  : Result (Observer * dict (dict (dict R)) * list R) :=
  let azimuths : dict (dict (dict R)) := [] in
  let observer := set_date observer (next_equinox start_date) in
  let i1 := obs_date observer in
  r <- find_azimuths (clock 0%nat) observer ;;
  let '(observer, a) := r in
  let azimuths := dict_set azimuths "vernal equinox" a in
  let observer := set_date observer (next_solstice (obs_date observer)) in
  let i2 := obs_date observer in
  r <- find_azimuths (clock 1%nat) observer ;;
  let '(observer, a) := r in
  let azimuths := dict_set azimuths "summer solstice" a in
  let observer := set_date observer (next_equinox (obs_date observer)) in
  let i3 := obs_date observer in
  r <- find_azimuths (clock 2%nat) observer ;;
  let '(observer, a) := r in
  let azimuths := dict_set azimuths "autumnal equinox" a in
  let observer := set_date observer (next_solstice (obs_date observer)) in
  let i4 := obs_date observer in
  r <- find_azimuths (clock 3%nat) observer ;;
  let '(observer, a) := r in
  let azimuths := dict_set azimuths "winter solstice" a in
  Ok (observer, azimuths, [i1; i2; i3; i4]).

(** [this_year] is [datetime.now().year]; the result carries the observer
    left behind and the list that is printed after "Matches:". *)
Definition find_alignments (clock : nat -> R) (this_year : Z)
    (observer : Observer) (waypoints : list Waypoint) (year : option Z)
  : Result (Observer * list Match) :=
  let year :=
    match year with
    | Some y => if Z.eqb y 0 then this_year else y
    | None => this_year
    end in
  let start_date := Date_jan1 year in
  r <- season_azimuths clock observer start_date ;;
  let '(observer, azimuths, _) := r in
  Ok (observer, find_matches azimuths waypoints).

(** The chain of section 4.3 as the specification words it: each instant
    is the next event after the previous instant. *)
Definition spec_season_chain (start_date : R) : list R :=
  let vernalEquinox := next_equinox start_date in
  let summerSolstice := next_solstice vernalEquinox in
  let autumnalEquinox := next_equinox summerSolstice in
  let winterSolstice := next_solstice autumnalEquinox in
  [vernalEquinox; summerSolstice; autumnalEquinox; winterSolstice].

End Aggregator.

(** ** The DOM that [xml.dom.minidom] hands over *)

#[local] Unset Elimination Schemes.
Inductive Node : Type :=
| Element (tagName : string) (attributes : list (string * string))
          (childNodes : list Node)
| TextNode (data : string)
| OtherNode (data : string).
(* [OtherNode]: a comment, CDATA section or processing instruction; its
   [nodeType] is not [TEXT_NODE]. *)
#[local] Set Elimination Schemes.

(** The childNodes of the [Document] node. *)
Definition Document : Type := list Node.

Definition node_children (n : Node) : list Node :=
  match n with
  | Element _ _ children => children
  | _ => []
  end.


(** minidom's [_get_elements_by_tagName_helper], seen from one child: the
    child itself when it is an element of that name, then what lies below
    it, in document order. *)
Fixpoint elements_from (name : string) (node : Node) : list Node :=
  match node with
  | Element tag _ children =>
      (if String.eqb name "*" || String.eqb tag name then [node] else [])
      ++ flat_map (elements_from name) children
  | _ => []
  end.

Definition getElementsByTagName (name : string) (parent : Node) : list Node :=
  flat_map (elements_from name) (node_children parent).

Definition document_getElementsByTagName (name : string) (dom : Document)
  : list Node :=
  flat_map (elements_from name) dom.

(** [node.getAttribute(attname)]: the empty string when there is none. *)
Definition getAttribute (attname : string) (node : Node) : string :=
  match node with
  | Element _ attrs _ =>
      match dict_get attrs attname with
      | Some v => v
      | None => EmptyString
      end
  | _ => EmptyString
  end.

(** A minidom node is always true, so [if not node] never fires. *)
Definition get_DOM_text (node : Node) (childname : option string)
  : option string :=
  let found :=
    match childname with
    | Some c =>
        if String.eqb c "" then Some node
        else
          match getElementsByTagName c node with
          | [] => None
          | first :: _ => Some first
          end
    | None => Some node
    end in
  match found with
  | None => None
  | Some node =>
      match node_children node with
      | TextNode data :: _ => Some data
      | _ => None
      end
  end.

(** ** read_track_file_GPX *)

(** [s.lower()], on the ASCII letters. *)
Definition lower_ascii (c : ascii) : ascii :=
  let n := nat_of_ascii c in
  if (Nat.leb 65 n && Nat.leb n 90)%bool then ascii_of_nat (n + 32) else c.

Fixpoint lower (s : string) : string :=
  match s with
  | EmptyString => EmptyString
  | String c rest => String (lower_ascii c) (lower rest)
  end.

(** ["Point %d" % pointno] *)
Definition point_name (pointno : nat) : string :=
  ("Point " ++ NilEmpty.string_of_uint (Nat.to_uint pointno))%string.

(** What the loader returns: the bare [[]] of line 146, or the pair of
    line 168. *)
Inductive Loaded : Type :=
| EmptyList
| Pair (observer : option Node) (waypoints : list Waypoint).

Section Loader.
(** [float(s)] on a string; [None] is its [ValueError]. *)
Variable float_of_string : string -> option R.

Definition to_float (s : string) : Result R :=
  match float_of_string s with
  | Some x => Ok x
  | None => Raise (ValueError "could not convert string to float")
  end.

(** Lines 153-156: [float(None)] is a [TypeError], an unreadable text a
    [ValueError]; the bare [except] catches both. *)
Definition elevation_of (pt : Node) : R :=
  match get_DOM_text pt (Some "ele"%string) with
  | None => 500
  | Some s =>
      match float_of_string s with
      | Some x => x
      | None => 500
      end
  end.

(** The body of the loop of line 150; the state is
    [(observer, waypoints, pointno)]. *)
Definition read_waypoint (st : option Node * list Waypoint * nat) (pt : Node)
  : Result (option Node * list Waypoint * nat) :=
  let '(observer, waypoints, pointno) := st in
  lat <- to_float (getAttribute "lat" pt) ;;
  lon <- to_float (getAttribute "lon" pt) ;;
  let ele := elevation_of pt in
  let name := get_DOM_text pt (Some "name"%string) in
  let '(pointno, name) :=
    match name with
    | Some s =>
        if String.eqb s "" then (S pointno, point_name (S pointno))
        else (pointno, s)
    | None => (S pointno, point_name (S pointno))
    end in
  let waypoints := waypoints ++ [mkWaypoint name lat lon ele] in
  let observer :=
    if String.eqb (lower name) "observer" then Some pt else observer in
  Ok (observer, waypoints, pointno).

Fixpoint read_waypoints (st : option Node * list Waypoint * nat)
    (waypts : list Node) : Result (option Node * list Waypoint * nat) :=
  match waypts with
  | [] => Ok st
  | pt :: rest => st' <- read_waypoint st pt ;; read_waypoints st' rest
  end.

(** [dom] is [xml.dom.minidom.parse(filename)]. *)
Definition read_track_file_GPX (dom : Document) : Result Loaded :=
  let waypts := document_getElementsByTagName "wpt" dom in
  match waypts with
  | [] => Ok EmptyList
  | _ =>
      st <- read_waypoints (None, [], 0%nat) waypts ;;
      let '(observer, waypoints, _) := st in
      Ok (Pair observer waypoints)
  end.

End Loader.

(** ** The script body, lines 227-260 *)

(** [observerPoint] is a list [[name, lat, lon, ele]] (from [-o] or from
    [waypoints[0]]) or the DOM element the loader returned. *)
Inductive ObserverPoint : Type :=
| ObsList (w : Waypoint)
| ObsElement (pt : Node).

Inductive Output : Type :=
| PrintNoWaypoints (filename : string)
| PrintHelp
| PrintFirstWaypoint (w : Waypoint)
| PrintObserver (o : Observer)
| PrintMatches (ms : list Match).

Inductive Outcome : Type :=
| Finished
| SysExit (code : Z)
| Uncaught (e : exn).

Section Main.
Context {E : Ephemeris}.
Variable float_of_string : string -> option R.
(** [xml.dom.minidom.parse] *)
Variable parse : string -> Result Document.

(** [obs, wp = value]: a list of length 0 does not unpack into two names. *)
Definition unpack2 (v : Loaded) : Result (option Node * list Waypoint) :=
  match v with
  | EmptyList =>
      Raise (ValueError "not enough values to unpack (expected 2, got 0)")
  | Pair obs wp => Ok (obs, wp)
  end.

(** The loop of line 228; what was printed so far comes back with the
    result, also when the loop raises. *)
Fixpoint load_files (gpxfiles : list string) (waypoints : list Waypoint)
    (observerPoint : option ObserverPoint) (out : list Output)
  : list Output * Result (list Waypoint * option ObserverPoint) :=
  match gpxfiles with
  | [] => (out, Ok (waypoints, observerPoint))
  | filename :: rest =>
      match (dom <- parse filename ;;
             v <- read_track_file_GPX float_of_string dom ;;
             unpack2 v) with
      | Raise e => (out, Raise e)
      | Ok (obs, wp) =>
          let '(waypoints, out) :=
            match wp with
            | [] => (waypoints, out ++ [PrintNoWaypoints filename])
            | _ => (waypoints ++ wp, out)
            end in
          let observerPoint :=
            match obs with
            | Some pt => Some (ObsElement pt)
            | None => observerPoint
            end in
          load_files rest waypoints observerPoint out
      end
  end.

(** [observerPoint[i]]: a DOM element is not subscriptable. *)
Definition observer_of (today : R) (p : ObserverPoint) : Result Observer :=
  match p with
  | ObsList w =>
      Ok (mkObserver (wp_lat w * degree) (wp_lon w * degree) (wp_ele w) today)
  | ObsElement _ => Raise (TypeError "'Element' object is not subscriptable")
  end.

(** [observerPoint] is what lines 210-225 computed from [-o]; [today] is
    the date of a fresh [ephem.Observer()]. *)
Definition main (clock : nat -> R) (this_year : Z) (today : R)
    (observerPoint : option Waypoint) (gpxfiles : list string)
  : list Output * Outcome :=
  let observerPoint := option_map ObsList observerPoint in
  match load_files gpxfiles [] observerPoint [] with
  | (out, Raise e) => (out, Uncaught e)
  | (out, Ok ([], _)) => (out ++ [PrintHelp], SysExit 1)
  | (out, Ok ((first :: _) as waypoints, observerPoint)) =>
      let '(observerPoint, out) :=
        match observerPoint with
        | Some p => (p, out)
        | None => (ObsList first, out ++ [PrintFirstWaypoint first])
        end in
      match observer_of today observerPoint with
      | Raise e => (out, Uncaught e)
      | Ok observer =>
          let out := out ++ [PrintObserver observer] in
          match find_alignments clock this_year observer waypoints None with
          | Raise e => (out, Uncaught e)
          | Ok (_, matches) => (out ++ [PrintMatches matches], Finished)
          end
      end
  end.

End Main.

(** ** Concrete collaborators for the examples *)

(** A small ephemeris: the body rose 3/4 day ago and rises again in 1/4
    day, set 1/4 day ago and sets again in 3/4 day; the last full moon was
    20 days ago and the next one is in 9.5 days; the next equinox and the
    next solstice are 10 days ahead.  Every "previous" lies before and every
    "next" after the instant asked about.  The azimuth is 90 degrees for an
    observer whose date is before day 1, and 180 degrees afterwards. *)
Definition toy_compute (_ : Body) (o : Observer) : R :=
  if Rlt_dec (obs_date o) 1 then PI / 2 else PI.

Definition toy_ephem : Ephemeris := {|
  previous_rising := fun o _ => Ok (obs_date o - 3 / 4);
  next_rising := fun o _ => Ok (obs_date o + 1 / 4);
  previous_setting := fun o _ => Ok (obs_date o - 1 / 4);
  next_setting := fun o _ => Ok (obs_date o + 3 / 4);
  compute := toy_compute;
  previous_full_moon := fun t => t - 20;
  next_full_moon := fun t => t + 19 / 2;
  next_equinox := fun t => t + 10;
  next_solstice := fun t => t + 10;
  Date_jan1 := fun y => 365 * IZR (y - 1900)
|}.

Definition toy_observer : Observer := mkObserver 0 0 500 45000.

(** Events that recur every [period] days, one of them at day [base]: the
    first one after [t], and the last one not after [t]. *)
Definition next_event (base period t : R) : R :=
  base + period * (IZR (Int_part ((t - base) / period)) + 1).

Definition previous_event (base period t : R) : R :=
  next_event base period t - period.

(** An almanac with regular events.  Days are counted as [ephem.Date]
    counts them, from noon of 1899-12-31.  Every body rises at a quarter
    past each day number and sets half a day later; full moons are 29.5
    days apart, day 14 being one; equinoxes are 182.625 days apart, day
    79.5 (21 March 1900) being one, and the solstices lie midway between
    them; 1 January of year y is day 365.25 (y - 1900) + 0.5.  Azimuths
    are those of [toy_compute]. *)
Definition almanac : Ephemeris := {|
  previous_rising := fun o _ => Ok (previous_event (1 / 4) 1 (obs_date o));
  next_rising := fun o _ => Ok (next_event (1 / 4) 1 (obs_date o));
  previous_setting := fun o _ => Ok (previous_event (3 / 4) 1 (obs_date o));
  next_setting := fun o _ => Ok (next_event (3 / 4) 1 (obs_date o));
  compute := toy_compute;
  previous_full_moon := previous_event 14 (59 / 2);
  next_full_moon := next_event 14 (59 / 2);
  next_equinox := next_event (159 / 2) (1461 / 8);
  next_solstice := next_event (159 / 2 + 1461 / 16) (1461 / 8);
  Date_jan1 := fun y => 1461 / 4 * IZR (y - 1900) + 1 / 2
|}.

(** [float] on the strings made of decimal digits only; the examples use no
    other string that [float] would accept. *)
Fixpoint digits_value (s : string) (acc : nat) : option nat :=
  match s with
  | EmptyString => Some acc
  | String c rest =>
      let n := nat_of_ascii c in
      if (Nat.leb 48 n && Nat.leb n 57)%bool
      then digits_value rest (10 * acc + (n - 48))
      else None
  end.

Definition float_of_digits (s : string) : option R :=
  match s with
  | EmptyString => None
  | _ => option_map INR (digits_value s 0)
  end.

(** A GPX file without waypoints, and one with two: the first has no
    elevation, the second an elevation that is not a number. *)
Definition empty_gpx : Document := [Element "gpx" [] []].

Definition two_wpt_gpx : Document :=
  [Element "gpx" []
     [Element "wpt" [("lat", "34"); ("lon", "103")]
        [Element "name" [] [TextNode "A"]];
      Element "wpt" [("lat", "35"); ("lon", "104")]
        [Element "ele" [] [TextNode "high"];
         Element "name" [] [TextNode "B"]]]]%string.

(** ** The specification's wording, for comparison *)

(** "atan2(y, x) in degrees". *)
Definition to_degrees (r : R) : R := r * 180 / PI.

(** Section 4.1: with dl the difference of the longitudes,
    y = sin(dl) cos(phiB), x = cos(phiA) sin(phiB) - sin(phiA) cos(phiB) cos(dl),
    bearing = (360 - atan2(y, x) in degrees) mod 360. *)
Definition spec_bearing (A B : Waypoint) : R :=
  let dl := wp_lon B - wp_lon A in
  let y := sin dl * cos (wp_lat B) in
  let x := cos (wp_lat A) * sin (wp_lat B)
           - sin (wp_lat A) * cos (wp_lat B) * cos dl in
  float_mod (360 - to_degrees (atan2 y x)) 360.

(** The entries of the table, one per season, body and event, in the order
    the three loops meet them. *)
Definition table_entries (azimuths : dict (dict (dict R)))
  : list (string * string * string * R) :=
  flat_map (fun '(season, bodies) =>
    flat_map (fun '(body, events) =>
      map (fun '(event, az) => (season, body, event, az)) (events : dict R))
    (bodies : dict (dict R)))
  azimuths.

(** The test of line 126 on one entry of the table. *)
Definition entry_match (n1 n2 : string) (angle : R)
    (entry : string * string * string * R) : list Match :=
  let '(season, body, event, az) := entry in
  if Rlt_dec (Rabs (az - angle)) DEGREESLOP
  then [(n1, n2, match_label season body event)]
  else [].

(** Two waypoints whose bearing is 359 degrees, and a table whose only
    entry is an azimuth of 1 degree. *)
Definition wp_south : Waypoint := mkWaypoint "A" 0 0 500.
Definition wp_north : Waypoint := mkWaypoint "B" (89 * degree) (PI / 2) 500.

Definition one_degree_table : dict (dict (dict R)) :=
  [("vernal equinox", [("sun", [("rise", 1)])])]%string.

(** A table whose only entry is the azimuth [az], and how far apart two
    directions are on the circle, in degrees. *)
Definition single_azimuth_table (az : R) : dict (dict (dict R)) :=
  [("vernal equinox", [("sun", [("rise", az)])])]%string.

Definition circular_distance (a b : R) : R :=
  Rmin (Rabs (a - b)) (360 - Rabs (a - b)).

(** Two waypoints on the equator whose longitudes are the finite floats
    -2^1023 and 2^1023 (about 8.99e307). *)
Definition wp_far_west : Waypoint := mkWaypoint "W" 0 (- IZR (2 ^ 1023)) 500.
Definition wp_far_east : Waypoint := mkWaypoint "E" 0 (IZR (2 ^ 1023)) 500.

(** A [<wpt>] without an [<ele>] child whose [<extensions>] hold an
    element of that name. *)
Definition nested_ele_wpt : Node :=
  (Element "wpt" [("lat", "34"); ("lon", "103")]
     [Element "extensions" [] [Element "ele" [] [TextNode "7"]]])%string.



(** What a loaded record owes to its [<wpt>] element. *)
Definition loaded_from (float_of_string : string -> option R)
    (pt : Node) (w : Waypoint) : Prop :=
  wp_ele w = elevation_of float_of_string pt /\
  float_of_string (getAttribute "lat" pt) = Some (wp_lat w) /\
  float_of_string (getAttribute "lon" pt) = Some (wp_lon w).

(** ** Names used to state further properties *)

(** The keys under which [find_alignments], [find_azimuths] and
    [find_rise_set] store azimuths, in the order of insertion. *)
Definition season_names : list string :=
  ["vernal equinox"; "summer solstice"; "autumnal equinox"; "winter solstice"]%string.

Definition body_names : list string := ["sun"; "full moon"]%string.

Definition event_names : list string := ["rise"; "set"]%string.

Definition table_keys : list (string * string * string) :=
  flat_map (fun season =>
    flat_map (fun body => map (fun event => (season, body, event)) event_names)
      body_names)
    season_names.

Definition entry_key (entry : string * string * string * R)
  : string * string * string :=
  let '(season, body, event, _) := entry in (season, body, event).

(** The observer's place: what [observer.date = ...] leaves alone. *)
Definition same_place (o o' : Observer) : Prop :=
  obs_lat o' = obs_lat o /\ obs_lon o' = obs_lon o /\
  obs_elevation o' = obs_elevation o.

(** Two waypoints at one place with different names and elevations; a
    waypoint north of [wp_south] on its meridian and one east of it on the
    equator. *)
Definition wp_south_again : Waypoint := mkWaypoint "C" 0 0 7.
Definition wp_meridian : Waypoint := mkWaypoint "D" 1 0 500.
Definition wp_equator : Waypoint := mkWaypoint "E" 0 1 500.

(** A [<wpt>] for which line 159 finds no name: no [<name>] element under
    it, one without leading text, or an empty text. *)
Definition is_unnamed (pt : Node) : bool :=
  match get_DOM_text pt (Some "name"%string) with
  | Some s => String.eqb s ""
  | None => true
  end.

(** A [<wpt>] whose name text is "observer" in any mix of cases. *)
Definition is_observer_wpt (pt : Node) : bool :=
  match get_DOM_text pt (Some "name"%string) with
  | Some s => String.eqb (lower s) "observer"
  | None => false
  end.

(** A file with three waypoints: an unnamed one, one named "OBSERVER" and
    a second unnamed one; and a file whose only waypoint lacks its [lat]
    attribute. *)
Definition three_wpt_gpx : Document :=
  [Element "gpx" []
     [Element "wpt" [("lat", "1"); ("lon", "2")] [];
      Element "wpt" [("lat", "3"); ("lon", "4")]
        [Element "name" [] [TextNode "OBSERVER"]];
      Element "wpt" [("lat", "5"); ("lon", "6")]
        [Element "name" [] []]]]%string.

Definition no_lat_gpx : Document :=
  [Element "gpx" [] [Element "wpt" [("lon", "2")] []]]%string.

(** [filename] parses and the loader returns the pair [r] for it. *)
Definition file_loads (float_of_string : string -> option R)
    (parse : string -> Result Document) (filename : string)
    (r : option Node * list Waypoint) : Prop :=
  exists dom,
    parse filename = Ok dom /\
    read_track_file_GPX float_of_string dom = Ok (Pair (fst r) (snd r)).

(** A parser for the examples: the file "three.gpx" holds [three_wpt_gpx],
    every other name [two_wpt_gpx]. *)
Definition example_parse (filename : string) : Result Document :=
  if String.eqb filename "three.gpx" then Ok three_wpt_gpx else Ok two_wpt_gpx.

(** ** The [-o] argument, lines 210-225 *)

(** [s.split(',')]: the pieces between the commas; never an empty list. *)
Fixpoint split_comma (s : string) : list string :=
  match s with
  | EmptyString => [EmptyString]
  | String c rest =>
      if Ascii.eqb c "," then EmptyString :: split_comma rest
      else
        match split_comma rest with
        | [] => [String c EmptyString]
        | piece :: pieces => String c piece :: pieces
        end
  end.

(** [s.endswith(c)] for a suffix of one character. *)
Fixpoint endswith (s : string) (c : ascii) : bool :=
  match s with
  | EmptyString => false
  | String a rest =>
      match rest with
      | EmptyString => Ascii.eqb a c
      | String _ _ => endswith rest c
      end
  end.

(** [s[:-1]] *)
Fixpoint drop_last (s : string) : string :=
  match s with
  | EmptyString => EmptyString
  | String a rest =>
      match rest with
      | EmptyString => EmptyString
      | String _ _ => String a (drop_last rest)
      end
  end.

(** How lines 210-225 end: with [observerPoint] set (to a list or to
    [None]), with an exception of [float], or with the [IndexError] of
    [floats[1]]. *)
Inductive ArgOutcome : Type :=
| ArgPoint (observerPoint : option Waypoint)
| ArgRaise (e : exn)
| ArgIndexError (msg : string).

Section ObserverArg.
(** [float(s)] and [s.strip()] *)
Variable float_of_string : string -> option R.
Variable strip : string -> string.

(** [observer_arg] is [args.observer]: [None] when [-o] is not given. *)
Definition observer_point_of (observer_arg : option string) : ArgOutcome :=
  match observer_arg with
  | None => ArgPoint None
  | Some arg =>
      if String.eqb arg "" then ArgPoint None
      else
        let floats := split_comma arg in
        match nth_error floats 0 with
        | None => ArgIndexError "list index out of range"
        | Some f0 =>
        match float_of_string (strip f0) with
        | None => ArgRaise (ValueError "could not convert string to float")
        | Some lat =>
        match nth_error floats 1 with
        | None => ArgIndexError "list index out of range"
        | Some f1 =>
        match float_of_string (strip f1) with
        | None => ArgRaise (ValueError "could not convert string to float")
        | Some lon =>
        match nth_error floats 2 with
        | None => ArgPoint (Some (mkWaypoint "Observer" lat lon 0))
        | Some f2 =>
            let ele :=
              if endswith f2 "f"
              then option_map (fun x => x * 0.3048)
                     (float_of_string (strip (drop_last f2)))
              else if endswith f2 "m"
              then float_of_string (strip (drop_last f2))
              else float_of_string (strip f2) in
            match ele with
            | None => ArgRaise (ValueError "could not convert string to float")
            | Some ele => ArgPoint (Some (mkWaypoint "Observer" lat lon ele))
            end
        end end end end end
  end.

End ObserverArg.

(** A string without a comma. *)
Fixpoint comma_free (s : string) : bool :=
  match s with
  | EmptyString => true
  | String c rest => negb (Ascii.eqb c ",") && comma_free rest
  end.


(** A file the script body cannot use: it does not parse, holds no [<wpt>],
    or makes the loader raise. *)
Definition file_fails (float_of_string : string -> option R)
    (parse : string -> Result Document) (filename : string) : Prop :=
  (exists e, parse filename = Raise e) \/
  (exists dom, parse filename = Ok dom /\
     (document_getElementsByTagName "wpt" dom = [] \/
      exists e, read_track_file_GPX float_of_string dom = Raise e)).

(** A parser for the examples: "empty.gpx" holds [empty_gpx], every other
    name [two_wpt_gpx]. *)
Definition example_parse_empty (filename : string) : Result Document :=
  if String.eqb filename "empty.gpx" then Ok empty_gpx else Ok two_wpt_gpx.

(** * Properties *)

(** ** Arithmetic of the model *)

Lemma degree_pos : 0 < degree.
Proof. unfold degree. pose proof PI_RGT_0. lra. Qed.

Lemma quarter_turn_degrees : PI / 2 / degree = 90.
Proof. unfold degree. pose proof PI_RGT_0. field. lra. Qed.

Lemma half_turn_degrees : PI / degree = 180.
Proof. unfold degree. pose proof PI_RGT_0. field. lra. Qed.

Lemma nearest_time_first (t t1 t2 : R) :
  Rabs (t - t1) <= Rabs (t - t2) -> nearest_time t t1 t2 = Rabs (t - t1).
Proof.
  intros H. unfold nearest_time. destruct (Rle_dec _ _); [reflexivity | contradiction].
Qed.

Lemma nearest_time_second (t t1 t2 : R) :
  Rabs (t - t2) < Rabs (t - t1) -> nearest_time t t1 t2 = Rabs (t - t2).
Proof.
  intros H. unfold nearest_time. destruct (Rle_dec _ _); [lra | reflexivity].
Qed.

(** What [nearest_time] returns is a length of time: it is never negative,
    whatever the three instants are. *)
Lemma nearest_time_nonneg (t t1 t2 : R) : 0 <= nearest_time t t1 t2.
Proof.
  unfold nearest_time. destruct (Rle_dec _ _); apply Rabs_pos.
Qed.

(** Solves goals about [Rabs] of concrete or linear terms. *)
Ltac abs_lra :=
  unfold Rabs in *; repeat (destruct (Rcase_abs _)); lra.

(** ** The small ephemeris at work *)

Lemma toy_find_rise_set (o : Observer) (b : Body) :
  3 / 2 <= obs_date o ->
  @find_rise_set toy_ephem o b None =
    Ok (set_date o (obs_date o - 1 / 2),
        [("rise"%string, 90); ("set"%string, 180)]).
Proof.
  intros Hd. unfold find_rise_set. cbn [bind toy_ephem previous_rising next_rising
    previous_setting next_setting compute].
  set (t := obs_date o) in *.
  assert (Hr : nearest_time t (t - 3 / 4) (t + 1 / 4) = 1 / 4).
  { rewrite nearest_time_second by abs_lra. abs_lra. }
  rewrite Hr. unfold set_date. cbn [obs_date obs_lat obs_lon obs_elevation].
  assert (Hs : nearest_time (1 / 4) (t - 1 / 4) (t + 3 / 4) = t - 1 / 2).
  { rewrite nearest_time_first by abs_lra. abs_lra. }
  rewrite Hs. unfold toy_compute. cbn [obs_date].
  fold t.
  destruct (Rlt_dec (1 / 4) 1) as [_ | C]; [ | lra].
  destruct (Rlt_dec (t - 1 / 2) 1) as [C | _]; [lra | ].
  rewrite quarter_turn_degrees, half_turn_degrees. reflexivity.
Qed.

Lemma toy_find_azimuths (o : Observer) :
  23 <= obs_date o ->
  @find_azimuths toy_ephem 0 o =
    Ok (set_date o (obs_date o - 21),
        [("sun"%string, [("rise"%string, 90); ("set"%string, 180)]);
         ("full moon"%string, [("rise"%string, 90); ("set"%string, 180)])]).
Proof.
  intros Hd. unfold find_azimuths.
  rewrite toy_find_rise_set by lra. cbn [bind].
  cbn [toy_ephem previous_full_moon next_full_moon].
  unfold set_date. cbn [obs_date obs_lat obs_lon obs_elevation].
  destruct (Rgt_dec _ _) as [C | _]; [lra | ].
  rewrite toy_find_rise_set by (cbn [obs_date]; lra). cbn [bind].
  unfold set_date. cbn [obs_date obs_lat obs_lon obs_elevation].
  simpl dict_set. do 3 f_equal. lra.
Qed.

(** The small ephemeris keeps to what "previous" and "next" mean. *)
Lemma toy_ephem_previous_next (o : Observer) (b : Body) (t : R) :
  @previous_rising toy_ephem o b = Ok (obs_date o - 3 / 4) /\
  @next_rising toy_ephem o b = Ok (obs_date o + 1 / 4) /\
  @previous_setting toy_ephem o b = Ok (obs_date o - 1 / 4) /\
  @next_setting toy_ephem o b = Ok (obs_date o + 3 / 4) /\
  @previous_full_moon toy_ephem t < t < @next_full_moon toy_ephem t /\
  t < @next_equinox toy_ephem t /\
  t < @next_solstice toy_ephem t.
Proof.
  cbn [previous_rising next_rising previous_setting next_setting
       previous_full_moon next_full_moon next_equinox next_solstice toy_ephem].
  repeat split; lra.
Qed.

(** ** The Resolver *)

Lemma degrees_in_range (a : R) :
  0 <= a < 2 * PI -> 0 <= a / degree < 360.
Proof.
  intros [Hlo Hhi]. pose proof degree_pos as Hd. split.
  - apply Rmult_le_pos; [assumption | left; apply Rinv_0_lt_compat; assumption].
  - apply Rmult_lt_reg_r with degree; [assumption | ].
    unfold Rdiv. rewrite Rmult_assoc, Rinv_l by lra.
    unfold degree. lra.
Qed.

(** When [find_rise_set] returns, the two azimuths are the provider's
    azimuths, in degrees, for the observer at the two dates the function
    assigned. *)
Lemma find_rise_set_returns {E : Ephemeris} observer obj d observer' riseset :
  find_rise_set observer obj d = Ok (observer', riseset) ->
  exists at_rise,
    riseset = [("rise"%string, compute obj at_rise / degree);
               ("set"%string, compute obj observer' / degree)].
Proof.
  unfold find_rise_set.
  set (o0 := match d with Some d' => _ | None => _ end).
  destruct (previous_rising o0 obj) as [pr | ]; [ | discriminate].
  destruct (next_rising o0 obj) as [nr | ]; [ | discriminate].
  destruct (previous_setting o0 obj) as [ps | ]; [ | discriminate].
  destruct (next_setting o0 obj) as [ns | ]; [ | discriminate].
  cbn [bind]. intros H. injection H as Ho Hr. subst observer'.
  eexists. symmetry. exact Hr.
Qed.

(** C1 (the code departs from the claim): [nearest_time] hands back the
    smaller of the two time differences, not the candidate instant that
    has it.  For target 10 and candidates 9 and 12 it returns 1.  With the
    small ephemeris and the observer at day 45000, the candidates for the
    rise are 44999.25 and 45000.25 and those for the set 44999.75 and
    45000.75; the rise azimuth is taken with the observer at day 0.25 (so it
    reads 90 and not 180), and the observer is left at day 44999.5, which is
    none of the candidates. *)
Theorem find_rise_set_moves_clock_to_distance :
  nearest_time 10 9 12 = 1 /\
  @find_rise_set toy_ephem toy_observer Sun None =
    Ok (set_date toy_observer (45000 - 1 / 2),
        [("rise"%string, 90); ("set"%string, 180)]).
Proof.
  split.
  - rewrite nearest_time_first by abs_lra. abs_lra.
  - apply toy_find_rise_set. cbn [toy_observer obs_date]. lra.
Qed.

(** C9: for an ephemeris whose azimuths are angles in [0, 2 PI) radians,
    whenever [find_rise_set] returns, the dict it returns holds a rise and
    a set azimuth, each in [0, 360) degrees. *)
Theorem resolver_azimuths_in_range {E : Ephemeris}
    (observer : Observer) (obj : Body) (d : option R)
    (observer' : Observer) (riseset : dict R) :
  (forall b o, 0 <= compute b o < 2 * PI) ->
  find_rise_set observer obj d = Ok (observer', riseset) ->
  exists rise_az set_az,
    riseset = [("rise"%string, rise_az); ("set"%string, set_az)] /\
    0 <= rise_az < 360 /\ 0 <= set_az < 360.
Proof.
  intros Haz H. destruct (find_rise_set_returns _ _ _ _ _ H) as [o1 ->].
  do 2 eexists. split; [reflexivity | ].
  split; apply degrees_in_range, Haz.
Qed.

Lemma toy_compute_range (b : Body) (o : Observer) :
  0 <= @compute toy_ephem b o < 2 * PI.
Proof.
  cbn [compute toy_ephem]. unfold toy_compute. pose proof PI_RGT_0.
  destruct (Rlt_dec _ _); lra.
Qed.

Lemma resolver_azimuths_in_range_witness :
  exists rise_az set_az,
    [("rise"%string, 90); ("set"%string, 180)] =
      [("rise"%string, rise_az); ("set"%string, set_az)] /\
    0 <= rise_az < 360 /\ 0 <= set_az < 360.
Proof.
  apply (@resolver_azimuths_in_range toy_ephem toy_observer Sun None
           (set_date toy_observer (45000 - 1 / 2))).
  - exact toy_compute_range.
  - apply toy_find_rise_set. cbn [toy_observer obs_date]. lra.
Defined.

(** ** The Aggregator *)

(** The test of line 60 keeps the full moon that is at least as near to
    [now] as the other one, as soon as the previous full moon is not after
    the next one. *)
Lemma full_moon_test_nearest (now lastfull nextfull : R) :
  lastfull <= nextfull ->
  let chosen :=
    if Rgt_dec (now - lastfull) (nextfull - now) then nextfull else lastfull in
  let other :=
    if Rgt_dec (now - lastfull) (nextfull - now) then lastfull else nextfull in
  Rabs (now - chosen) <= Rabs (now - other).
Proof.
  intros Hle. cbv zeta. destruct (Rgt_dec _ _) as [C | C]; abs_lra.
Qed.

(** C4: in [find_azimuths] the previous and the next full moon are asked
    for at the date the observer holds after the Sun has been resolved;
    the Moon is then resolved with the observer set to one of the two, and
    the one taken is at least as near to [now], the wall clock of the run,
    as the one left.  The provider is taken to put the previous full moon
    no later than the next one. *)
Theorem full_moon_nearest_to_now {E : Ephemeris} (now : R)
    (observer observer' : Observer) (riseset : dict (dict R)) :
  (forall t, previous_full_moon t <= next_full_moon t) ->
  find_azimuths now observer = Ok (observer', riseset) ->
  exists after_sun sun moon chosen other,
    find_rise_set observer Sun None = Ok (after_sun, sun) /\
    ((chosen = previous_full_moon (obs_date after_sun) /\
      other = next_full_moon (obs_date after_sun)) \/
     (chosen = next_full_moon (obs_date after_sun) /\
      other = previous_full_moon (obs_date after_sun))) /\
    Rabs (now - chosen) <= Rabs (now - other) /\
    find_rise_set (set_date after_sun chosen) Moon None = Ok (observer', moon) /\
    riseset = [("sun"%string, sun); ("full moon"%string, moon)].
Proof.
  intros Hfull. unfold find_azimuths.
  destruct (find_rise_set observer Sun None) as [[o1 sun] | e] eqn:Hsun;
    [ | discriminate].
  cbn [bind].
  pose proof (full_moon_test_nearest now _ _ (Hfull (obs_date o1))) as Hnear.
  cbv zeta in Hnear.
  destruct (Rgt_dec (now - previous_full_moon (obs_date o1))
                    (next_full_moon (obs_date o1) - now)) as [C | C].
  - destruct (find_rise_set (set_date o1 (next_full_moon (obs_date o1))) Moon None)
      as [[o2 moon] | e] eqn:Hmoon; [ | discriminate].
    cbn [bind]. intros H. injection H as <- <-.
    exists o1, sun, moon, (next_full_moon (obs_date o1)),
      (previous_full_moon (obs_date o1)).
    repeat split; auto.
  - destruct (find_rise_set (set_date o1 (previous_full_moon (obs_date o1))) Moon None)
      as [[o2 moon] | e] eqn:Hmoon; [ | discriminate].
    cbn [bind]. intros H. injection H as <- <-.
    exists o1, sun, moon, (previous_full_moon (obs_date o1)),
      (next_full_moon (obs_date o1)).
    repeat split; auto.
Qed.

Lemma toy_full_moons_ordered (t : R) :
  @previous_full_moon toy_ephem t <= @next_full_moon toy_ephem t.
Proof. cbn [previous_full_moon next_full_moon toy_ephem]. lra. Qed.

Lemma full_moon_nearest_to_now_witness :
  exists after_sun sun moon chosen other,
    @find_rise_set toy_ephem toy_observer Sun None = Ok (after_sun, sun) /\
    ((chosen = @previous_full_moon toy_ephem (obs_date after_sun) /\
      other = @next_full_moon toy_ephem (obs_date after_sun)) \/
     (chosen = @next_full_moon toy_ephem (obs_date after_sun) /\
      other = @previous_full_moon toy_ephem (obs_date after_sun))) /\
    Rabs (0 - chosen) <= Rabs (0 - other) /\
    @find_rise_set toy_ephem (set_date after_sun chosen) Moon None =
      Ok (set_date toy_observer (obs_date toy_observer - 21), moon) /\
    [("sun"%string, [("rise"%string, 90); ("set"%string, 180)]);
     ("full moon"%string, [("rise"%string, 90); ("set"%string, 180)])] =
      [("sun"%string, sun); ("full moon"%string, moon)].
Proof.
  apply (@full_moon_nearest_to_now toy_ephem 0 toy_observer).
  - exact toy_full_moons_ordered.
  - apply toy_find_azimuths. cbn [toy_observer obs_date]. lra.
Defined.

(** With the small ephemeris, an observer at day 45000 and the wall clock
    at day 0, the full moon that is taken (day 44979.5) is the one farther
    from the instant being processed: the next one (day 45009) is nearer
    to day 45000. *)
Lemma full_moon_not_nearest_to_season :
  exists sun moon,
    @find_rise_set toy_ephem toy_observer Sun None
      = Ok (set_date toy_observer (45000 - 1 / 2), sun) /\
    @find_rise_set toy_ephem (set_date toy_observer (45000 - 1 / 2 - 20)) Moon None
      = Ok (set_date toy_observer (45000 - 21), moon) /\
    @find_azimuths toy_ephem 0 toy_observer
      = Ok (set_date toy_observer (45000 - 21),
            [("sun"%string, sun); ("full moon"%string, moon)]) /\
    Rabs (45000 - (45000 - 1 / 2 + 19 / 2)) < Rabs (45000 - (45000 - 1 / 2 - 20)).
Proof.
  do 2 eexists. split; [ | split; [ | split ]].
  - apply toy_find_rise_set. cbn [toy_observer obs_date]. lra.
  - rewrite toy_find_rise_set by (cbn [toy_observer set_date obs_date]; lra).
    unfold set_date, toy_observer. cbn [obs_date obs_lat obs_lon obs_elevation].
    replace (45000 - 1 / 2 - 20 - 1 / 2) with (45000 - 21) by lra. reflexivity.
  - rewrite toy_find_azimuths by (cbn [toy_observer obs_date]; lra).
    reflexivity.
  - abs_lra.
Qed.

(** The chain as the specification words it is strictly increasing for
    every provider whose "next" events lie after the instant asked about. *)
Lemma spec_season_chain_increasing {E : Ephemeris} (start_date : R) :
  (forall t, t < next_equinox t) ->
  (forall t, t < next_solstice t) ->
  exists i1 i2 i3 i4,
    spec_season_chain start_date = [i1; i2; i3; i4] /\
    start_date < i1 /\ i1 < i2 /\ i2 < i3 /\ i3 < i4.
Proof.
  intros Heq Hsol. unfold spec_season_chain. do 4 eexists.
  split; [reflexivity | ]. repeat split; auto.
Qed.

(** Each seasonal instant after the first is the next event after the date
    that [find_azimuths] left in the observer, and that date is a value of
    [nearest_time]: a length of time, never negative. *)
Lemma find_rise_set_leaves_distance {E : Ephemeris} observer obj d observer' riseset :
  find_rise_set observer obj d = Ok (observer', riseset) ->
  exists t t1 t2, obs_date observer' = nearest_time t t1 t2.
Proof.
  unfold find_rise_set.
  set (o0 := match d with Some d' => _ | None => _ end).
  destruct (previous_rising o0 obj) as [pr | ]; [ | discriminate].
  destruct (next_rising o0 obj) as [nr | ]; [ | discriminate].
  destruct (previous_setting o0 obj) as [ps | ]; [ | discriminate].
  destruct (next_setting o0 obj) as [ns | ]; [ | discriminate].
  cbn [bind]. intros H. injection H as Ho Hr. subst observer'.
  do 3 eexists. reflexivity.
Qed.

(** ** The Bearing Calculator *)

Lemma atan2_range (y x : R) : - PI < atan2 y x <= PI.
Proof.
  unfold atan2. pose proof PI_RGT_0 as Hpi.
  pose proof (atan_bound (y / x)) as Hb.
  destruct (Rlt_dec 0 x) as [Hx | Hx]; [lra | ].
  destruct (Rlt_dec x 0) as [Hx' | Hx'].
  - destruct (Rle_dec 0 y) as [Hy | Hy].
    + assert (Hq : y / x <= 0).
      { assert (Hi : / x < 0) by (apply Rinv_lt_0_compat; assumption).
        unfold Rdiv. nra. }
      assert (Ha : atan (y / x) <= 0).
      { destruct Hq as [Hq | Hq].
        - left. rewrite <- atan_0. apply atan_increasing. assumption.
        - rewrite Hq, atan_0. lra. }
      lra.
    + assert (Hq : 0 < y / x).
      { assert (Hi : / x < 0) by (apply Rinv_lt_0_compat; assumption).
        unfold Rdiv. nra. }
      assert (Ha : 0 < atan (y / x)).
      { rewrite <- atan_0. apply atan_increasing. assumption. }
      lra.
  - destruct (Rlt_dec 0 y); [lra | ]. destruct (Rlt_dec y 0); lra.
Qed.

Lemma float_mod_range (x y : R) : 0 < y -> 0 <= float_mod x y < y.
Proof.
  intros Hy. unfold float_mod.
  destruct (base_Int_part (x / y)) as [Hlo Hhi].
  assert (Hx : x = y * (x / y)) by (field; lra).
  set (k := IZR (Int_part (x / y))) in *.
  split.
  - assert (y * k <= y * (x / y)) by (apply Rmult_le_compat_l; lra). lra.
  - assert (y * (x / y) < y * (k + 1)) by (apply Rmult_lt_compat_l; lra). lra.
Qed.

Lemma float_mod_small (x y : R) : 0 <= x < y -> float_mod x y = x.
Proof.
  intros [Hlo Hhi]. unfold float_mod.
  assert (Hy : 0 < y) by lra.
  replace (Int_part (x / y)) with 0%Z; [lra | ].
  apply Int_part_spec. split.
  - apply Rlt_le_trans with 0; [ | lra].
    assert (x / y < 1); [ | lra].
    apply Rmult_lt_reg_r with y; [assumption | ].
    unfold Rdiv. rewrite Rmult_assoc, Rinv_l by lra. lra.
  - unfold Rdiv. apply Rmult_le_pos; [assumption | ].
    left. apply Rinv_0_lt_compat. assumption.
Qed.

Lemma to_degrees_degree (r : R) : to_degrees r = r / degree.
Proof. unfold to_degrees, degree. pose proof PI_RGT_0. field. lra. Qed.

Lemma float_overflow_large : 1000 < float_overflow.
Proof. unfold float_overflow. apply IZR_lt. vm_compute. reflexivity. Qed.

(** As long as the difference of the longitudes is a finite float, the
    run on floats returns the value of [angle_between]; otherwise
    [math.sin] raises. *)
Lemma angle_between_float_in_range (A B : Waypoint) :
  Rabs (wp_lon B - wp_lon A) < float_overflow ->
  angle_between_float A B = Ok (angle_between A B).
Proof.
  intros H. unfold angle_between_float, angle_between, float_sub. cbv zeta.
  destruct (Rlt_dec _ _) as [_ | C]; [reflexivity | contradiction].
Qed.

Lemma angle_between_float_overflow (A B : Waypoint) :
  float_overflow <= Rabs (wp_lon B - wp_lon A) ->
  angle_between_float A B = Raise (ValueError "math domain error").
Proof.
  intros H. unfold angle_between_float, float_sub. cbv zeta.
  destruct (Rlt_dec _ _) as [C | _]; [lra | reflexivity].
Qed.

(** C7 (the claim holds where line 78 stays within the floats): for two
    waypoints whose longitudes differ by less than the magnitude at which
    a float difference becomes an infinity, [angle_between], run on floats
    as [angle_between_float] has it, returns the value of the formula of
    section 4.1 of the specification, and that value lies in [0, 360). *)
Theorem angle_between_formula_and_range (A B : Waypoint) :
  Rabs (wp_lon B - wp_lon A) < float_overflow ->
  angle_between_float A B = Ok (spec_bearing A B) /\
  0 <= spec_bearing A B < 360.
Proof.
  intros H. rewrite (angle_between_float_in_range A B H).
  assert (Heq : angle_between A B = spec_bearing A B).
  { unfold angle_between, spec_bearing. cbv zeta.
    rewrite to_degrees_degree. reflexivity. }
  rewrite <- Heq. split; [reflexivity | ].
  unfold angle_between. cbv zeta. apply float_mod_range. lra.
Qed.

Lemma angle_between_formula_and_range_witness :
  angle_between_float wp_south wp_north = Ok (spec_bearing wp_south wp_north) /\
  0 <= spec_bearing wp_south wp_north < 360.
Proof.
  apply (angle_between_formula_and_range wp_south wp_north).
  unfold wp_south, wp_north. cbn [wp_lon].
  pose proof PI_RGT_0 as H0. pose proof PI_4 as H4.
  pose proof float_overflow_large as Hf.
  unfold Rabs. destruct (Rcase_abs _); lra.
Defined.

(** Finite latitudes and longitudes are not enough: for the longitudes
    -2^1023 and 2^1023 the difference of line 78 is an infinity, and
    [math.sin] raises [ValueError] where the claim has a value in
    [0, 360) returned. *)
Lemma far_longitudes_raise :
  finite_float (wp_lat wp_far_west) /\ finite_float (wp_lon wp_far_west) /\
  finite_float (wp_lat wp_far_east) /\ finite_float (wp_lon wp_far_east) /\
  angle_between_float wp_far_west wp_far_east
    = Raise (ValueError "math domain error").
Proof.
  unfold finite_float, wp_far_west, wp_far_east. cbn [wp_lat wp_lon].
  assert (Hmax : IZR (2 ^ 1023) <= float_max).
  { unfold float_max. apply IZR_le. vm_compute. discriminate. }
  assert (Hpos : 0 <= IZR (2 ^ 1023)).
  { apply IZR_le. vm_compute. discriminate. }
  assert (H0 : 0 <= float_max) by lra.
  repeat split.
  - rewrite Rabs_R0. exact H0.
  - rewrite Rabs_Ropp, Rabs_pos_eq; assumption.
  - rewrite Rabs_R0. exact H0.
  - rewrite Rabs_pos_eq; assumption.
  - apply angle_between_float_overflow. cbn [wp_lon].
    rewrite Rabs_pos_eq by lra.
    unfold float_overflow.
    replace (IZR (2 ^ 1023) - - IZR (2 ^ 1023)) with (IZR (2 * 2 ^ 1023))
      by (rewrite mult_IZR; lra).
    apply IZR_le. vm_compute. discriminate.
Qed.

(** Before the reduction modulo 360 the value is between 180 and 540, so
    the reduction subtracts 360 at most once. *)
Lemma angle_between_unreduced (y x : R) :
  180 <= 360 - atan2 y x / degree < 540.
Proof.
  pose proof (atan2_range y x) as [Hlo Hhi]. pose proof degree_pos as Hd.
  assert (Hpi : 180 * degree = PI) by (unfold degree; lra).
  assert (Hq : atan2 y x / degree * degree = atan2 y x) by (field; lra).
  assert (H1 : atan2 y x / degree <= 180).
  { apply Rmult_le_reg_r with degree; [assumption | ]. lra. }
  assert (H2 : - 180 < atan2 y x / degree).
  { apply Rmult_lt_reg_r with degree; [assumption | ]. lra. }
  lra.
Qed.

Lemma bearing_south_north : angle_between wp_south wp_north = 359.
Proof.
  unfold angle_between, wp_south, wp_north.
  cbn [wp_lat wp_lon]. pose proof PI_RGT_0 as Hpi. pose proof degree_pos as Hd.
  assert (Hdeg : 89 * degree = PI / 2 - degree) by (unfold degree; lra).
  replace (PI / 2 - 0) with (PI / 2) by lra.
  rewrite sin_PI2, cos_PI2, cos_0, sin_0, Hdeg, sin_shift, cos_shift.
  replace (1 * sin degree) with (sin degree) by lra.
  replace (1 * cos degree - 0 * sin degree * 0) with (cos degree) by lra.
  assert (Hc : 0 < cos degree).
  { apply cos_gt_0; unfold degree; lra. }
  unfold atan2. destruct (Rlt_dec 0 (cos degree)) as [_ | C]; [ | contradiction].
  change (sin degree / cos degree) with (tan degree).
  rewrite atan_tan by (unfold degree; lra).
  replace (360 - degree / degree) with 359 by (field; lra).
  apply float_mod_small. lra.
Qed.

Lemma float_mod_once (x y : R) : 0 < y -> y <= x < 2 * y -> float_mod x y = x - y.
Proof.
  intros Hy [Hlo Hhi]. unfold float_mod.
  replace (Int_part (x / y)) with 1%Z; [lra | ].
  assert (Hq : x / y * y = x) by (field; lra).
  apply Int_part_spec. split.
  - assert (x / y < 2); [ | lra].
    apply Rmult_lt_reg_r with y; [assumption | ]. lra.
  - apply Rmult_le_reg_r with y; [assumption | ]. lra.
Qed.

Lemma bearing_north_south : angle_between wp_north wp_south = 90.
Proof.
  unfold angle_between, wp_south, wp_north.
  cbn [wp_lat wp_lon]. pose proof PI_RGT_0 as Hpi. pose proof degree_pos as Hd.
  replace (0 - PI / 2) with (- (PI / 2)) by lra.
  assert (Hy : sin (- (PI / 2)) * cos 0 = -1).
  { rewrite sin_neg, sin_PI2, cos_0. lra. }
  assert (Hx : cos (89 * degree) * sin 0
               - sin (89 * degree) * cos 0 * cos (- (PI / 2)) = 0).
  { rewrite cos_neg, cos_PI2, sin_0. lra. }
  rewrite Hy, Hx. unfold atan2.
  destruct (Rlt_dec 0 0) as [C | _]; [lra | ].
  destruct (Rlt_dec 0 (-1)) as [C | _]; [lra | ].
  destruct (Rlt_dec (-1) 0) as [_ | C]; [ | lra].
  replace (360 - - (PI / 2) / degree) with 450 by (unfold degree; field; lra).
  rewrite float_mod_once; lra.
Qed.

(** ** The Matcher *)

Lemma waypoint_eqb_eq (a b : Waypoint) : waypoint_eqb a b = true <-> a = b.
Proof.
  unfold waypoint_eqb. destruct a as [n1 la1 lo1 e1], b as [n2 la2 lo2 e2].
  cbn [wp_name wp_lat wp_lon wp_ele]. split.
  - intros H.
    apply andb_true_iff in H as [H He]. apply andb_true_iff in H as [H Hlo].
    apply andb_true_iff in H as [Hn Hla]. apply String.eqb_eq in Hn.
    destruct (Req_dec_T la1 la2); [ | discriminate].
    destruct (Req_dec_T lo1 lo2); [ | discriminate].
    destruct (Req_dec_T e1 e2); [ | discriminate].
    congruence.
  - intros H. injection H as -> -> -> ->. rewrite String.eqb_refl.
    destruct (Req_dec_T la2 la2); [ | contradiction].
    destruct (Req_dec_T lo2 lo2); [ | contradiction].
    destruct (Req_dec_T e2 e2); [ | contradiction].
    reflexivity.
Qed.

Lemma waypoint_eqb_neq (a b : Waypoint) : waypoint_eqb a b = false <-> a <> b.
Proof.
  rewrite <- waypoint_eqb_eq. destruct (waypoint_eqb a b); split; congruence.
Qed.

Lemma flat_map_map {A B C : Type} (f : B -> list C) (g : A -> B) (l : list A) :
  flat_map f (map g l) = flat_map (fun x => f (g x)) l.
Proof.
  induction l as [ | x l IH]; cbn [map flat_map]; [reflexivity | ].
  rewrite IH. reflexivity.
Qed.

Lemma flat_map_nested {A B C : Type} (f : B -> list C) (g : A -> list B)
    (l : list A) :
  flat_map f (flat_map g l) = flat_map (fun x => flat_map f (g x)) l.
Proof.
  induction l as [ | x l IH]; cbn [flat_map]; [reflexivity | ].
  rewrite flat_map_app, IH. reflexivity.
Qed.

Lemma angle_matches_entries azimuths n1 n2 angle :
  angle_matches azimuths n1 n2 angle =
    flat_map (entry_match n1 n2 angle) (table_entries azimuths).
Proof.
  unfold angle_matches, table_entries. rewrite flat_map_nested.
  apply flat_map_ext. intros [season bodies]. rewrite flat_map_nested.
  apply flat_map_ext. intros [body events]. rewrite flat_map_map.
  apply flat_map_ext. intros [event az]. reflexivity.
Qed.

Lemma find_matches_pairs azimuths waypoints :
  find_matches azimuths waypoints =
    flat_map (fun p => angle_matches azimuths (wp_name (fst p)) (wp_name (snd p))
                         (angle_between (fst p) (snd p)))
             (enumerated_pairs waypoints).
Proof.
  unfold find_matches, enumerated_pairs. rewrite flat_map_nested.
  apply flat_map_ext. intros wp1. rewrite flat_map_nested.
  apply flat_map_ext. intros wp2.
  destruct (waypoint_eqb wp1 wp2); cbn [flat_map fst snd].
  - reflexivity.
  - rewrite app_nil_r. reflexivity.
Qed.

Lemma in_enumerated_pairs waypoints a b :
  In (a, b) (enumerated_pairs waypoints) <->
  In a waypoints /\ In b waypoints /\ a <> b.
Proof.
  unfold enumerated_pairs. rewrite in_flat_map. split.
  - intros [wp1 [H1 H]]. apply in_flat_map in H as [wp2 [H2 H]].
    destruct (waypoint_eqb wp1 wp2) eqn:Heq; [contradiction | ].
    destruct H as [H | []]. injection H as <- <-.
    apply waypoint_eqb_neq in Heq. auto.
  - intros (Ha & Hb & Hne). exists a. split; [assumption | ].
    apply in_flat_map. exists b. split; [assumption | ].
    apply waypoint_eqb_neq in Hne. rewrite Hne. left. reflexivity.
Qed.

(** C8: the two loops reach [angle_between] for exactly the ordered pairs
    of waypoints of the list that differ as records, so for (A, B) and for
    (B, A), and never for a waypoint with itself; the matches are those of
    these pairs, in that order. *)
Theorem matcher_enumerates_ordered_pairs
    (azimuths : dict (dict (dict R))) (waypoints : list Waypoint) :
  find_matches azimuths waypoints =
    flat_map (fun p => angle_matches azimuths (wp_name (fst p)) (wp_name (snd p))
                         (angle_between (fst p) (snd p)))
             (enumerated_pairs waypoints) /\
  (forall a b, In (a, b) (enumerated_pairs waypoints) <->
               In a waypoints /\ In b waypoints /\ a <> b) /\
  (forall a b, In a waypoints -> In b waypoints -> a <> b ->
               In (a, b) (enumerated_pairs waypoints) /\
               In (b, a) (enumerated_pairs waypoints)) /\
  (forall a, ~ In (a, a) (enumerated_pairs waypoints)).
Proof.
  split; [apply find_matches_pairs | ].
  split; [intros a b; apply in_enumerated_pairs | ].
  split.
  - intros a b Ha Hb Hne. split; apply in_enumerated_pairs; auto.
  - intros a H. apply in_enumerated_pairs in H as (_ & _ & Hne). congruence.
Qed.

Lemma in_entry_match n1 n2 angle season body event az m :
  In m (entry_match n1 n2 angle (season, body, event, az)) <->
  Rabs (az - angle) < 2 /\ m = (n1, n2, match_label season body event).
Proof.
  unfold entry_match, DEGREESLOP. destruct (Rlt_dec _ _) as [H | H].
  - split.
    + intros [<- | []]. auto.
    + intros [_ ->]. left. reflexivity.
  - split; [intros [] | intros [C _]; contradiction].
Qed.

(** C5: the list of matches holds, for each enumerated pair in turn and
    each entry of the table in turn, one match when
    [abs(azimuth - bearing) < 2] and nothing otherwise.  An entry exactly 2
    degrees from the bearing gives no match; one 1.999 degrees away gives
    one. *)
Theorem match_iff_within_two_degrees
    (azimuths : dict (dict (dict R))) (waypoints : list Waypoint) :
  find_matches azimuths waypoints =
    flat_map (fun p =>
      flat_map (fun e : string * string * string * R =>
        let '(season, body, event, az) := e in
        if Rlt_dec (Rabs (az - angle_between (fst p) (snd p))) 2
        then [(wp_name (fst p), wp_name (snd p), match_label season body event)]
        else [])
      (table_entries azimuths))
    (enumerated_pairs waypoints) /\
  (forall m, In m (find_matches azimuths waypoints) <->
     exists wp1 wp2 season body event az,
       In (wp1, wp2) (enumerated_pairs waypoints) /\
       In (season, body, event, az) (table_entries azimuths) /\
       Rabs (az - angle_between wp1 wp2) < 2 /\
       m = (wp_name wp1, wp_name wp2, match_label season body event)) /\
  (forall n1 n2 season body event az angle,
     Rabs (az - angle) = 2 ->
     angle_matches [(season, [(body, [(event, az)])])] n1 n2 angle = []) /\
  (forall n1 n2 season body event az angle,
     Rabs (az - angle) = 1.999 ->
     angle_matches [(season, [(body, [(event, az)])])] n1 n2 angle
       = [(n1, n2, match_label season body event)]).
Proof.
  split; [ | split; [ | split ]].
  - rewrite find_matches_pairs. apply flat_map_ext. intros p.
    rewrite angle_matches_entries. reflexivity.
  - intros m. rewrite find_matches_pairs, in_flat_map. split.
    + intros [[wp1 wp2] [Hp H]]. cbn [fst snd] in H.
      rewrite angle_matches_entries in H.
      apply in_flat_map in H as [[[[season body] event] az] [He H]].
      apply in_entry_match in H as [Hlt ->].
      exists wp1, wp2, season, body, event, az. auto.
    + intros (wp1 & wp2 & season & body & event & az & Hp & He & Hlt & ->).
      exists (wp1, wp2). split; [assumption | ]. cbn [fst snd].
      rewrite angle_matches_entries. apply in_flat_map.
      exists (season, body, event, az). split; [assumption | ].
      apply in_entry_match. auto.
  - intros n1 n2 season body event az angle H.
    unfold angle_matches, DEGREESLOP. cbn [flat_map app]. rewrite H.
    destruct (Rlt_dec 2 2) as [C | _]; [lra | reflexivity].
  - intros n1 n2 season body event az angle H.
    unfold angle_matches, DEGREESLOP. cbn [flat_map app]. rewrite H.
    destruct (Rlt_dec 1.999 2) as [_ | C]; [reflexivity | lra].
Qed.

(** The matches for the two waypoints A = (0, 0) and B = (89 degrees,
    PI / 2), whose bearings are 359 from A to B and 90 from B to A,
    against a table with a single azimuth. *)
Lemma matches_south_north (az : R) :
  find_matches (single_azimuth_table az) [wp_south; wp_north] =
    (if Rlt_dec (Rabs (az - 359)) DEGREESLOP
     then [("A", "B", "vernal equinox sunrise")]%string else [])
    ++ (if Rlt_dec (Rabs (az - 90)) DEGREESLOP
        then [("B", "A", "vernal equinox sunrise")]%string else []).
Proof.
  assert (Hne : waypoint_eqb wp_south wp_north = false).
  { apply waypoint_eqb_neq. unfold wp_south, wp_north. intros H. discriminate H. }
  assert (Hne' : waypoint_eqb wp_north wp_south = false).
  { apply waypoint_eqb_neq. unfold wp_south, wp_north. intros H. discriminate H. }
  unfold find_matches. cbn [flat_map].
  rewrite (proj2 (waypoint_eqb_eq wp_south wp_south) eq_refl).
  rewrite (proj2 (waypoint_eqb_eq wp_north wp_north) eq_refl).
  rewrite Hne, Hne'. cbv zeta.
  rewrite bearing_south_north, bearing_north_south.
  unfold angle_matches, single_azimuth_table. cbn [flat_map app].
  destruct (Rlt_dec (Rabs (az - 359)) DEGREESLOP);
    destruct (Rlt_dec (Rabs (az - 90)) DEGREESLOP); reflexivity.
Qed.

(** C6: the waypoints A = (0, 0) and B = (89 degrees, PI / 2) have bearing
    359 from A to B.  Against a table whose only azimuth is 1 degree, which
    is 2 degrees away on the circle, the Matcher finds nothing.  It finds
    nothing either for any azimuth from 0 up to 1 degree, although such an
    azimuth is less than 2 degrees from the bearing on the circle: the
    test is on the plain difference, which is 358 or more.  An azimuth of
    357.5 degrees, at 1.5 degrees on the same side of north, is matched. *)
Theorem no_wraparound_at_north :
  angle_between wp_south wp_north = 359 /\
  circular_distance 1 359 = 2 /\
  find_matches one_degree_table [wp_south; wp_north] = [] /\
  (forall az, 0 <= az < 1 ->
     circular_distance az 359 = az + 1 /\
     circular_distance az 359 < DEGREESLOP /\
     find_matches (single_azimuth_table az) [wp_south; wp_north] = []) /\
  find_matches (single_azimuth_table 357.5) [wp_south; wp_north]
    = [("A", "B", "vernal equinox sunrise")]%string.
Proof.
  assert (Hnone : forall az, 0 <= az <= 1 ->
            find_matches (single_azimuth_table az) [wp_south; wp_north] = []).
  { intros az Haz. rewrite matches_south_north. unfold DEGREESLOP.
    destruct (Rlt_dec (Rabs (az - 359)) 2) as [C | _];
      [exfalso; revert C; abs_lra | ].
    destruct (Rlt_dec (Rabs (az - 90)) 2) as [C | _];
      [exfalso; revert C; abs_lra | reflexivity]. }
  assert (Hcirc : forall az, 0 <= az <= 1 -> circular_distance az 359 = az + 1).
  { intros az Haz. unfold circular_distance, Rmin.
    destruct (Rle_dec _ _); abs_lra. }
  split; [exact bearing_south_north | ].
  split; [rewrite Hcirc; lra | ].
  split; [change one_degree_table with (single_azimuth_table 1); apply Hnone; lra | ].
  split.
  - intros az Haz. rewrite Hcirc by lra. unfold DEGREESLOP.
    split; [reflexivity | ]. split; [lra | apply Hnone; lra].
  - rewrite matches_south_north. unfold DEGREESLOP.
    destruct (Rlt_dec (Rabs (357.5 - 359)) 2) as [_ | C];
      [ | exfalso; apply C; abs_lra].
    destruct (Rlt_dec (Rabs (357.5 - 90)) 2) as [C | _];
      [exfalso; revert C; abs_lra | reflexivity].
Qed.

Lemma no_wraparound_at_north_witness :
  circular_distance (1 / 2) 359 = 1 / 2 + 1 /\
  circular_distance (1 / 2) 359 < DEGREESLOP /\
  find_matches (single_azimuth_table (1 / 2)) [wp_south; wp_north] = [].
Proof.
  apply (proj1 (proj2 (proj2 (proj2 no_wraparound_at_north)))). lra.
Defined.

(** ** The loader *)

Section LoaderFacts.
Variable float_of_string : string -> option R.


Lemma read_waypoint_ok observer waypoints pointno pt :
  float_of_string (getAttribute "lat" pt) <> None ->
  float_of_string (getAttribute "lon" pt) <> None ->
  exists observer' w pointno',
    read_waypoint float_of_string (observer, waypoints, pointno) pt
      = Ok (observer', waypoints ++ [w], pointno') /\
    loaded_from float_of_string pt w.
Proof.
  intros Hlat Hlon. unfold read_waypoint, to_float.
  destruct (float_of_string (getAttribute "lat" pt)) as [lat | ] eqn:Elat;
    [ | contradiction].
  destruct (float_of_string (getAttribute "lon" pt)) as [lon | ] eqn:Elon;
    [ | contradiction].
  cbn [bind].
  destruct (get_DOM_text pt (Some "name"%string)) as [s | ];
    [destruct (String.eqb s "") | ];
    do 3 eexists; (split; [reflexivity | ]);
    unfold loaded_from; cbn [wp_ele wp_lat wp_lon]; rewrite ?Elat, ?Elon; auto.
Qed.



(** Whatever the loader returns as a pair holds at least one waypoint,
    so the branch of line 233 of the script body is never taken. *)
Lemma loader_pair_nonempty dom observer waypoints :
  read_track_file_GPX float_of_string dom = Ok (Pair observer waypoints) ->
  waypoints <> [].
Proof.
  unfold read_track_file_GPX.
  destruct (document_getElementsByTagName "wpt" dom) as [ | pt rest];
    [discriminate | ].
  cbn [read_waypoints].
  destruct (read_waypoint float_of_string (None, [], 0%nat) pt)
    as [[[o1 w1] n1] | e] eqn:Hstep; [ | discriminate].
  cbn [bind].
  assert (Hw1 : w1 <> []).
  { revert Hstep. unfold read_waypoint.
    destruct (to_float float_of_string (getAttribute "lat" pt)); [ | discriminate].
    destruct (to_float float_of_string (getAttribute "lon" pt)); [ | discriminate].
    cbn [bind app].
    destruct (get_DOM_text pt (Some "name"%string)) as [s | ];
      [destruct (String.eqb s "") | ]; intros H; injection H as _ <- _;
      discriminate. }
  assert (Hgrow : forall l o w n o' w' n',
             read_waypoints float_of_string (o, w, n) l = Ok (o', w', n') ->
             w <> [] -> w' <> []).
  { induction l as [ | p l IHl]; intros o w n o' w' n' H Hw.
    - cbn [read_waypoints] in H. injection H as _ <- _. assumption.
    - cbn [read_waypoints] in H.
      destruct (read_waypoint float_of_string (o, w, n) p)
        as [[[o2 w2] n2] | e] eqn:Hp; [ | discriminate].
      cbn [bind] in H. apply IHl in H; [assumption | ].
      revert Hp. unfold read_waypoint.
      destruct (to_float float_of_string (getAttribute "lat" p)); [ | discriminate].
      destruct (to_float float_of_string (getAttribute "lon" p)); [ | discriminate].
      cbn [bind].
      destruct (get_DOM_text p (Some "name"%string)) as [s | ];
        [destruct (String.eqb s "") | ]; intros H'; injection H' as _ <- _;
        destruct w; discriminate. }
  destruct (read_waypoints float_of_string (o1, w1, n1) rest)
    as [[[o2 w2] n2] | e] eqn:Hrest; [ | discriminate].
  cbn [bind]. intros H. injection H as _ <-.
  eapply Hgrow; eassumption.
Qed.

End LoaderFacts.


Lemma two_wpt_gpx_loaded :
  read_track_file_GPX float_of_digits two_wpt_gpx =
    Ok (Pair None [mkWaypoint "A" (INR 34) (INR 103) 500;
                   mkWaypoint "B" (INR 35) (INR 104) 500]).
Proof. reflexivity. Qed.


(** The [<ele>] element is looked for at any depth under the [<wpt>]: one
    inside [<extensions>] is read as the elevation. *)
Lemma nested_ele_is_read :
  getElementsByTagName "ele" nested_ele_wpt <> [] /\
  elevation_of float_of_digits nested_ele_wpt = INR 7.
Proof. split; [cbn; discriminate | reflexivity]. Qed.


(** ** The script body *)

Section MainFacts.
Context {E : Ephemeris}.
Variable float_of_string : string -> option R.
Variable parse : string -> Result Document.

(** The loop over the files prints nothing: a pair returned by the loader
    always holds a waypoint, and an empty file does not get as far as the
    test of line 230. *)
Lemma load_files_prints_nothing gpxfiles :
  forall waypoints observerPoint out,
  fst (load_files float_of_string parse gpxfiles waypoints observerPoint out) = out.
Proof.
  induction gpxfiles as [ | filename rest IH]; intros waypoints observerPoint out.
  - reflexivity.
  - cbn [load_files].
    destruct (parse filename) as [dom | e]; [ | reflexivity]. cbn [bind].
    destruct (read_track_file_GPX float_of_string dom) as [[ | obs wp] | e] eqn:Hload;
      [reflexivity | | reflexivity].
    cbn [bind unpack2].
    apply loader_pair_nonempty in Hload.
    destruct wp as [ | w wp]; [contradiction | ].
    apply IH.
Qed.

Lemma main_never_reports_no_waypoints clock this_year today observerPoint
    gpxfiles filename :
  ~ In (PrintNoWaypoints filename)
       (fst (main float_of_string parse clock this_year today observerPoint gpxfiles)).
Proof.
  unfold main.
  pose proof (load_files_prints_nothing gpxfiles [] (option_map ObsList observerPoint) [])
    as Hout.
  destruct (load_files float_of_string parse gpxfiles [] (option_map ObsList observerPoint) [])
    as [out [[waypoints op] | e]]; cbn [fst] in Hout; subst out.
  - destruct waypoints as [ | first waypoints].
    + cbn. intros [H | []]. discriminate.
    + destruct op as [p | ].
      * destruct (observer_of today p) as [observer | e]; [ | intros []].
        destruct (find_alignments clock this_year observer (first :: waypoints) None)
          as [[o ms] | e]; cbn; intros H;
          repeat (destruct H as [H | H]; [discriminate | ]); assumption.
      * cbn [observer_of].
        destruct (find_alignments clock this_year _ (first :: waypoints) None)
          as [[o ms] | e]; cbn; intros H;
          repeat (destruct H as [H | H]; [discriminate | ]); assumption.
  - intros [].
Qed.

(** A first file without [<wpt>] ends the run at line 229. *)
Lemma main_first_file_without_wpt clock this_year today observerPoint
    filename rest dom :
  parse filename = Ok dom ->
  document_getElementsByTagName "wpt" dom = [] ->
  main float_of_string parse clock this_year today observerPoint (filename :: rest)
    = ([], Uncaught (ValueError "not enough values to unpack (expected 2, got 0)")).
Proof.
  intros Hparse Hnone. unfold main. cbn [load_files].
  rewrite Hparse. cbn [bind]. unfold read_track_file_GPX. rewrite Hnone.
  reflexivity.
Qed.

End MainFacts.

(** C3 (the code departs from the claim): for a file without [<wpt>]
    elements the loader returns the bare empty list of line 146, and the
    script body, which unpacks the result into two names at line 229, stops
    there with a [ValueError]: nothing has been printed, neither "No
    waypoints in" nor the help text, and the exit of line 239 is not
    reached.  No ephemeris query has been made: the result is the same for
    every ephemeris. *)
Theorem empty_file_stops_at_unpacking {E : Ephemeris}
    (float_of_string : string -> option R) (clock : nat -> R) (this_year : Z)
    (today : R) (observerPoint : option Waypoint) (rest : list string) :
  read_track_file_GPX float_of_string empty_gpx = Ok EmptyList /\
  main float_of_string (fun _ => Ok empty_gpx) clock this_year today observerPoint
       ("empty.gpx"%string :: rest)
    = ([], Uncaught (ValueError "not enough values to unpack (expected 2, got 0)")).
Proof.
  split; [reflexivity | ].
  apply main_first_file_without_wpt with (dom := empty_gpx); reflexivity.
Qed.

(** ** Further facts on the chain of seasons and on the matcher *)

(** For every ephemeris: the first instant is the next equinox after the
    start date, and each later instant is the next event after the date
    the preceding call of [find_azimuths] left in the observer. *)
Lemma season_instants_from_leftover {E : Ephemeris} clock observer start_date
    observer' azimuths instants :
  season_azimuths clock observer start_date = Ok (observer', azimuths, instants) ->
  exists o1 a1 o2 a2 o3 a3,
    find_azimuths (clock 0%nat) (set_date observer (next_equinox start_date))
      = Ok (o1, a1) /\
    find_azimuths (clock 1%nat) (set_date o1 (next_solstice (obs_date o1)))
      = Ok (o2, a2) /\
    find_azimuths (clock 2%nat) (set_date o2 (next_equinox (obs_date o2)))
      = Ok (o3, a3) /\
    instants = [next_equinox start_date; next_solstice (obs_date o1);
                next_equinox (obs_date o2); next_solstice (obs_date o3)].
Proof.
  unfold season_azimuths. cbv zeta.
  destruct (find_azimuths (clock 0%nat) _) as [[o1 a1] | e] eqn:H1; [ | discriminate].
  cbn [bind].
  destruct (find_azimuths (clock 1%nat) _) as [[o2 a2] | e] eqn:H2; [ | discriminate].
  cbn [bind].
  destruct (find_azimuths (clock 2%nat) _) as [[o3 a3] | e] eqn:H3; [ | discriminate].
  cbn [bind].
  destruct (find_azimuths (clock 3%nat) _) as [[o4 a4] | e] eqn:H4; [ | discriminate].
  cbn [bind]. intros H. injection H as _ _ <-.
  exists o1, a1, o2, a2, o3, a3. repeat split; assumption.
Qed.

(** *** Where the date left in the observer leads the chain *)

(** The date that [find_rise_set] leaves: the distance from the rise
    distance to the nearer setting candidate. *)
Lemma find_rise_set_queries {E : Ephemeris} observer obj observer' riseset :
  find_rise_set observer obj None = Ok (observer', riseset) ->
  exists pr nr ps ns,
    previous_rising observer obj = Ok pr /\ next_rising observer obj = Ok nr /\
    previous_setting observer obj = Ok ps /\ next_setting observer obj = Ok ns /\
    obs_date observer' =
      nearest_time (nearest_time (obs_date observer) pr nr) ps ns.
Proof.
  unfold find_rise_set.
  destruct (previous_rising observer obj) as [pr | ]; [ | discriminate].
  destruct (next_rising observer obj) as [nr | ]; [ | discriminate].
  destruct (previous_setting observer obj) as [ps | ]; [ | discriminate].
  destruct (next_setting observer obj) as [ns | ]; [ | discriminate].
  cbn [bind]. intros H. injection H as <- _.
  exists pr, nr, ps, ns. repeat split; reflexivity.
Qed.

(** The two calls of [find_rise_set] inside [find_azimuths]. *)
Lemma find_azimuths_calls {E : Ephemeris} now observer observer' riseset :
  find_azimuths now observer = Ok (observer', riseset) ->
  exists after_sun sun moon,
    find_rise_set observer Sun None = Ok (after_sun, sun) /\
    find_rise_set
      (set_date after_sun
         (if Rgt_dec (now - previous_full_moon (obs_date after_sun))
                     (next_full_moon (obs_date after_sun) - now)
          then next_full_moon (obs_date after_sun)
          else previous_full_moon (obs_date after_sun)))
      Moon None = Ok (observer', moon).
Proof.
  unfold find_azimuths.
  destruct (find_rise_set observer Sun None) as [[o1 sun] | e] eqn:Hsun;
    [ | discriminate].
  cbn [bind]. intros H. exists o1, sun.
  destruct (Rgt_dec _ _) as [C | C];
    match type of H with
    | context [find_rise_set ?o2 Moon None] =>
        destruct (find_rise_set o2 Moon None) as [[o3 moon] | e] eqn:Hmoon;
          [ | discriminate]
    end;
    cbn [bind] in H; injection H as <- _; exists moon;
    (split; reflexivity).
Qed.

(** On a date from day 3 on, the setting candidates are larger than the
    rise distance, and the date left is at most 3 days before the date
    asked about. *)
Lemma leftover_late (T pr nr ps ns : R) :
  3 <= T ->
  T - 3 / 2 <= pr <= T -> T <= nr <= T + 3 / 2 ->
  T - 3 / 2 <= ps <= T -> T <= ns <= T + 3 / 2 ->
  T - 3 <= nearest_time (nearest_time T pr nr) ps ns <= T.
Proof.
  intros HT Hpr Hnr Hps Hns. unfold nearest_time.
  destruct (Rle_dec (Rabs (T - pr)) (Rabs (T - nr)));
    destruct (Rle_dec _ _); abs_lra.
Qed.

(** On a negative date the setting candidates are negative, and the
    distance to them is the date with its sign dropped, give or take a day
    and a half. *)
Lemma leftover_early (T pr nr ps ns : R) :
  T <= - (3 / 2) ->
  T - 3 / 2 <= pr <= T -> T <= nr <= T + 3 / 2 ->
  T - 3 / 2 <= ps <= T -> T <= ns <= T + 3 / 2 ->
  - T - 3 / 2 <= nearest_time (nearest_time T pr nr) ps ns <= - T + 3 / 2.
Proof.
  intros HT Hpr Hnr Hps Hns. unfold nearest_time.
  destruct (Rle_dec (Rabs (T - pr)) (Rabs (T - nr)));
    destruct (Rle_dec _ _); abs_lra.
Qed.

Section Contract.
Context {E : Ephemeris}.
Hypothesis contract : ephemeris_contract E.

Lemma find_rise_set_leftover_late observer obj observer' riseset :
  3 <= obs_date observer ->
  find_rise_set observer obj None = Ok (observer', riseset) ->
  obs_date observer - 3 <= obs_date observer' <= obs_date observer.
Proof.
  intros HT H.
  apply find_rise_set_queries in H
    as (pr & nr & ps & ns & Hpr & Hnr & Hps & Hns & ->).
  apply leftover_late; [assumption | | | | ].
  - eapply previous_rising_near; eassumption.
  - eapply next_rising_near; eassumption.
  - eapply previous_setting_near; eassumption.
  - eapply next_setting_near; eassumption.
Qed.

Lemma find_rise_set_leftover_early observer obj observer' riseset :
  obs_date observer <= - (3 / 2) ->
  find_rise_set observer obj None = Ok (observer', riseset) ->
  - obs_date observer - 3 / 2 <= obs_date observer'
    <= - obs_date observer + 3 / 2.
Proof.
  intros HT H.
  apply find_rise_set_queries in H
    as (pr & nr & ps & ns & Hpr & Hnr & Hps & Hns & ->).
  apply leftover_early; [assumption | | | | ].
  - eapply previous_rising_near; eassumption.
  - eapply next_rising_near; eassumption.
  - eapply previous_setting_near; eassumption.
  - eapply next_setting_near; eassumption.
Qed.

Lemma full_moon_taken_near now after_sun :
  let full :=
    if Rgt_dec (now - previous_full_moon (obs_date after_sun))
               (next_full_moon (obs_date after_sun) - now)
    then next_full_moon (obs_date after_sun)
    else previous_full_moon (obs_date after_sun) in
  obs_date after_sun - 30 <= full <= obs_date after_sun + 30.
Proof.
  cbv zeta.
  pose proof (previous_full_moon_near E contract (obs_date after_sun)) as Hp.
  pose proof (next_full_moon_near E contract (obs_date after_sun)) as Hn.
  destruct (Rgt_dec _ _); lra.
Qed.

(** From day 36 on, the date that [find_azimuths] leaves behind is within
    36 days of the date it was called with. *)
Lemma find_azimuths_leftover_late now observer observer' riseset :
  36 <= obs_date observer ->
  find_azimuths now observer = Ok (observer', riseset) ->
  obs_date observer - 36 <= obs_date observer' <= obs_date observer + 30.
Proof.
  intros HT H.
  apply find_azimuths_calls in H as (o1 & sun & moon & Hsun & Hmoon).
  pose proof (full_moon_taken_near now o1) as Hfull. cbv zeta in Hfull.
  apply find_rise_set_leftover_late in Hsun; [ | lra].
  apply find_rise_set_leftover_late in Hmoon;
    unfold set_date in *; cbn [obs_date] in *; lra.
Qed.

(** Up to day -36, it is within 36 days of the date with its sign dropped:
    [abs] in [nearest_time] mirrors the date at day 0. *)
Lemma find_azimuths_leftover_early now observer observer' riseset :
  obs_date observer <= - 36 ->
  find_azimuths now observer = Ok (observer', riseset) ->
  - obs_date observer - 36 <= obs_date observer' <= - obs_date observer + 36.
Proof.
  intros HT H.
  apply find_azimuths_calls in H as (o1 & sun & moon & Hsun & Hmoon).
  pose proof (full_moon_taken_near now o1) as Hfull. cbv zeta in Hfull.
  apply find_rise_set_leftover_early in Hsun; [ | lra].
  apply find_rise_set_leftover_late in Hmoon;
    unfold set_date in *; cbn [obs_date] in *; lra.
Qed.

(** Within 36 days of an equinox, the next solstice is the one that
    follows that equinox; and the same with the two exchanged. *)
Lemma next_solstice_near_equinox (v l : R) :
  next_equinox v - 36 <= l <= next_equinox v + 36 ->
  next_solstice l = next_solstice (next_equinox v) /\
  next_equinox v + 80 <= next_solstice (next_equinox v).
Proof.
  intros Hl. set (T := next_equinox v) in *.
  assert (Hfar : T + 80 <= next_solstice T).
  { pose proof (next_solstice_near E contract T) as Hs.
    pose proof (seasons_apart E contract v T) as Ha. fold T in Ha.
    revert Ha. abs_lra. }
  split; [ | exact Hfar].
  destruct (Rle_dec T l) as [Hle | Hlt].
  - apply (next_solstice_same E contract). lra.
  - symmetry. apply (next_solstice_same E contract).
    pose proof (next_solstice_near E contract l) as Hs.
    pose proof (seasons_apart E contract v l) as Ha. fold T in Ha.
    split; [lra | ]. revert Ha. abs_lra.
Qed.

Lemma next_equinox_near_solstice (v l : R) :
  next_solstice v - 36 <= l <= next_solstice v + 36 ->
  next_equinox l = next_equinox (next_solstice v) /\
  next_solstice v + 80 <= next_equinox (next_solstice v).
Proof.
  intros Hl. set (T := next_solstice v) in *.
  assert (Hfar : T + 80 <= next_equinox T).
  { pose proof (next_equinox_near E contract T) as Hs.
    pose proof (seasons_apart E contract T v) as Ha. fold T in Ha.
    revert Ha. abs_lra. }
  split; [ | exact Hfar].
  destruct (Rle_dec T l) as [Hle | Hlt].
  - apply (next_equinox_same E contract). lra.
  - symmetry. apply (next_equinox_same E contract).
    pose proof (next_equinox_near E contract l) as Hs.
    pose proof (seasons_apart E contract l v) as Ha. fold T in Ha.
    split; [lra | ]. revert Ha. abs_lra.
Qed.

(** When the vernal equinox found falls 190 days or more before day 0, the
    date left behind by the first call of [find_azimuths] is positive,
    within 36 days of the equinox date with its sign dropped; the three
    later instants follow from there. *)
Lemma season_instants_before_day_0 clock observer start_date observer' azimuths
    instants :
  next_equinox start_date <= - 190 ->
  season_azimuths clock observer start_date = Ok (observer', azimuths, instants) ->
  exists o1 a1,
    find_azimuths (clock 0%nat) (set_date observer (next_equinox start_date))
      = Ok (o1, a1) /\
    - next_equinox start_date - 36 <= obs_date o1
      <= - next_equinox start_date + 36 /\
    instants =
      [next_equinox start_date;
       next_solstice (obs_date o1);
       next_equinox (next_solstice (obs_date o1));
       next_solstice (next_equinox (next_solstice (obs_date o1)))].
Proof.
  intros Hneg H.
  apply season_instants_from_leftover in H
    as (o1 & a1 & o2 & a2 & o3 & a3 & H1 & H2 & H3 & ->).
  exists o1, a1. split; [exact H1 | ].
  set (T1 := next_equinox start_date) in *.
  apply find_azimuths_leftover_early in H1;
    [unfold set_date in H1; cbn [obs_date] in H1
    | unfold set_date; cbn [obs_date]; lra].
  split; [exact H1 | ].
  pose proof (next_solstice_near E contract (obs_date o1)) as Hs.
  set (T2 := next_solstice (obs_date o1)) in *.
  apply find_azimuths_leftover_late in H2;
    [unfold set_date in H2; cbn [obs_date] in H2
    | unfold set_date; cbn [obs_date]; lra].
  destruct (next_equinox_near_solstice (obs_date o1) (obs_date o2)) as [E3 F3];
    [fold T2; lra | ]. fold T2 in E3, F3.
  rewrite E3 in *. set (T3 := next_equinox T2) in *.
  apply find_azimuths_leftover_late in H3;
    [unfold set_date in H3; cbn [obs_date] in H3
    | unfold set_date; cbn [obs_date]; lra].
  destruct (next_solstice_near_equinox T2 (obs_date o3)) as [E4 F4];
    [fold T3; lra | ]. fold T3 in E4, F4.
  rewrite E4. reflexivity.
Qed.

End Contract.

(** X21: for an ephemeris that keeps [ephemeris_contract], when the vernal
    equinox found falls on day 36 or later (5 February 1900 at the
    earliest) and the aggregation gets through, the dates left behind in
    the observer stay near enough to the seasonal instants: the four
    instants are the chain of the specification, each the next event after
    the one before, and they increase. *)
Theorem season_chain_from_day_36 {E : Ephemeris} (clock : nat -> R)
    (observer : Observer) (start_date : R) (observer' : Observer)
    (azimuths : dict (dict (dict R))) (instants : list R) :
  ephemeris_contract E ->
  36 <= next_equinox start_date ->
  season_azimuths clock observer start_date = Ok (observer', azimuths, instants) ->
  instants = spec_season_chain start_date /\
  exists i1 i2 i3 i4,
    instants = [i1; i2; i3; i4] /\ i1 < i2 /\ i2 < i3 /\ i3 < i4.
Proof.
  intros contract H36 H.
  apply season_instants_from_leftover in H
    as (o1 & a1 & o2 & a2 & o3 & a3 & H1 & H2 & H3 & ->).
  set (T1 := next_equinox start_date) in *.
  apply (find_azimuths_leftover_late contract) in H1;
    [unfold set_date in H1; cbn [obs_date] in H1
    | unfold set_date; cbn [obs_date]; lra].
  destruct (next_solstice_near_equinox contract start_date (obs_date o1))
    as [E2 F2]; [fold T1; lra | ]. fold T1 in E2, F2.
  rewrite E2 in *. set (T2 := next_solstice T1) in *.
  apply (find_azimuths_leftover_late contract) in H2;
    [unfold set_date in H2; cbn [obs_date] in H2
    | unfold set_date; cbn [obs_date]; lra].
  destruct (next_equinox_near_solstice contract T1 (obs_date o2))
    as [E3 F3]; [fold T2; lra | ]. fold T2 in E3, F3.
  rewrite E3 in *. set (T3 := next_equinox T2) in *.
  apply (find_azimuths_leftover_late contract) in H3;
    [unfold set_date in H3; cbn [obs_date] in H3
    | unfold set_date; cbn [obs_date]; lra].
  destruct (next_solstice_near_equinox contract T2 (obs_date o3))
    as [E4 F4]; [fold T3; lra | ]. fold T3 in E4, F4.
  rewrite E4. split; [reflexivity | ].
  do 4 eexists. split; [reflexivity | ]. lra.
Qed.

(** C2 (the code departs from the claim): lines 99, 102 and 105 take the
    next event after the date that [find_azimuths] left in the observer,
    and that date is a value of [nearest_time], an absolute difference.
    For every ephemeris that keeps [ephemeris_contract] and every start
    date whose vernal equinox falls 190 days or more before day 0 of the
    day count (before 24 June 1899), when the aggregation gets through, the
    instant used for the summer solstice is later than the date of the
    vernal equinox with its sign dropped, less 36 days; so it is positive,
    while the next solstice after the vernal equinox, which the chain of
    the specification has in second place, is not.  The autumnal equinox
    and the winter solstice are the events that follow that late instant:
    the four instants are not the chain of the specification. *)
Theorem season_chain_lost_before_day_0 {E : Ephemeris} (clock : nat -> R)
    (observer : Observer) (start_date : R) (observer' : Observer)
    (azimuths : dict (dict (dict R))) (instants : list R) :
  ephemeris_contract E ->
  next_equinox start_date <= - 190 ->
  season_azimuths clock observer start_date = Ok (observer', azimuths, instants) ->
  exists summer,
    instants = [next_equinox start_date; summer; next_equinox summer;
                next_solstice (next_equinox summer)] /\
    - next_equinox start_date - 36 < summer /\
    nth_error (spec_season_chain start_date) 1
      = Some (next_solstice (next_equinox start_date)) /\
    next_solstice (next_equinox start_date) <= 0 /\
    instants <> spec_season_chain start_date.
Proof.
  intros contract Hneg H.
  destruct (season_instants_before_day_0 contract _ _ _ _ _ _ Hneg H)
    as (o1 & a1 & _ & Hl & ->).
  pose proof (next_solstice_near E contract (obs_date o1)) as Hs.
  pose proof (next_solstice_near E contract (next_equinox start_date)) as Hc.
  exists (next_solstice (obs_date o1)). split; [reflexivity | ].
  split; [lra | ]. split; [reflexivity | ]. split; [lra | ].
  unfold spec_season_chain. intros Heq. injection Heq as Heq _ _. lra.
Qed.

(** *** The almanac keeps the contract *)

Lemma next_event_eval (base period t : R) (k : Z) :
  0 < period ->
  base + period * IZR k <= t < base + period * (IZR k + 1) ->
  next_event base period t = base + period * (IZR k + 1).
Proof.
  intros Hp [Hlo Hhi]. unfold next_event.
  replace (Int_part ((t - base) / period)) with k; [reflexivity | ].
  assert (Hq : (t - base) / period * period = t - base) by (field; lra).
  apply Int_part_spec. split.
  - assert ((t - base) / period < IZR k + 1); [ | lra].
    apply Rmult_lt_reg_r with period; [assumption | ]. lra.
  - apply Rmult_le_reg_r with period; [assumption | ]. lra.
Qed.

Lemma next_event_after (base period t : R) :
  0 < period -> t < next_event base period t <= t + period.
Proof.
  intros Hp. unfold next_event.
  destruct (base_Int_part ((t - base) / period)) as [Hlo Hhi].
  assert (Hq : (t - base) / period * period = t - base) by (field; lra).
  set (k := IZR (Int_part ((t - base) / period))) in *.
  set (x := (t - base) / period) in *.
  assert (H1 : k * period <= x * period) by (apply Rmult_le_compat_r; lra).
  assert (H2 : x * period < (k + 1) * period) by (apply Rmult_lt_compat_r; lra).
  lra.
Qed.

Lemma next_event_same (base period t u : R) :
  0 < period -> t <= u < next_event base period t ->
  next_event base period u = next_event base period t.
Proof.
  intros Hp [Hlo Hhi].
  pose proof (next_event_after base period t Hp) as Ht.
  unfold next_event in Hhi, Ht |- *.
  set (k := Int_part ((t - base) / period)) in *.
  fold (next_event base period u).
  apply next_event_eval; [assumption | ]. lra.
Qed.

Lemma almanac_contract : ephemeris_contract almanac.
Proof.
  constructor;
    cbn [previous_rising next_rising previous_setting next_setting
         previous_full_moon next_full_moon next_equinox next_solstice almanac].
  - intros o b t H. injection H as <-. unfold previous_event.
    pose proof (next_event_after (1 / 4) 1 (obs_date o)). lra.
  - intros o b t H. injection H as <-.
    pose proof (next_event_after (1 / 4) 1 (obs_date o)). lra.
  - intros o b t H. injection H as <-. unfold previous_event.
    pose proof (next_event_after (3 / 4) 1 (obs_date o)). lra.
  - intros o b t H. injection H as <-.
    pose proof (next_event_after (3 / 4) 1 (obs_date o)). lra.
  - intros t. unfold previous_event.
    pose proof (next_event_after 14 (59 / 2) t). lra.
  - intros t. pose proof (next_event_after 14 (59 / 2) t). lra.
  - intros t. pose proof (next_event_after (159 / 2) (1461 / 8) t). lra.
  - intros t. pose proof (next_event_after (159 / 2 + 1461 / 16) (1461 / 8) t). lra.
  - intros t u. apply next_event_same. lra.
  - intros t u. apply next_event_same. lra.
  - intros t u. unfold next_event.
    set (k1 := Int_part _). set (k2 := Int_part _).
    destruct (Z_le_gt_dec k1 k2) as [Hle | Hgt].
    + apply IZR_le in Hle. abs_lra.
    + assert (Hge : (k2 + 1 <= k1)%Z) by lia.
      apply IZR_le in Hge. rewrite plus_IZR in Hge. abs_lra.
Qed.

(** A provider whose four rise/set queries always answer lets the
    aggregation get through. *)
Section GetsThrough.
Context {E : Ephemeris}.
Hypothesis rises : forall o b,
  (exists t, previous_rising o b = Ok t) /\ (exists t, next_rising o b = Ok t) /\
  (exists t, previous_setting o b = Ok t) /\ (exists t, next_setting o b = Ok t).

Lemma find_rise_set_gets_through observer obj :
  exists observer' riseset,
    find_rise_set observer obj None = Ok (observer', riseset).
Proof.
  unfold find_rise_set.
  destruct (rises observer obj) as ([pr ->] & [nr ->] & [ps ->] & [ns ->]).
  cbn [bind]. eauto.
Qed.

Lemma find_azimuths_gets_through now observer :
  exists observer' riseset, find_azimuths now observer = Ok (observer', riseset).
Proof.
  unfold find_azimuths.
  destruct (find_rise_set_gets_through observer Sun) as (o1 & sun & ->).
  cbn [bind].
  match goal with
  | |- context [find_rise_set ?o2 Moon None] =>
      destruct (find_rise_set_gets_through o2 Moon) as (o3 & moon & ->)
  end.
  cbn [bind]. eauto.
Qed.

Lemma season_azimuths_gets_through clock observer start_date :
  exists observer' azimuths instants,
    season_azimuths clock observer start_date = Ok (observer', azimuths, instants).
Proof.
  unfold season_azimuths. cbv zeta.
  destruct (find_azimuths_gets_through (clock 0%nat)
              (set_date observer (next_equinox start_date))) as (o1 & a1 & ->).
  cbn [bind].
  destruct (find_azimuths_gets_through (clock 1%nat)
              (set_date o1 (next_solstice (obs_date o1)))) as (o2 & a2 & ->).
  cbn [bind].
  destruct (find_azimuths_gets_through (clock 2%nat)
              (set_date o2 (next_equinox (obs_date o2)))) as (o3 & a3 & ->).
  cbn [bind].
  destruct (find_azimuths_gets_through (clock 3%nat)
              (set_date o3 (next_solstice (obs_date o3)))) as (o4 & a4 & ->).
  cbn [bind]. eauto.
Qed.

End GetsThrough.

Lemma almanac_rises (o : Observer) (b : Body) :
  (exists t, @previous_rising almanac o b = Ok t) /\
  (exists t, @next_rising almanac o b = Ok t) /\
  (exists t, @previous_setting almanac o b = Ok t) /\
  (exists t, @next_setting almanac o b = Ok t).
Proof. repeat split; eexists; reflexivity. Qed.

(** For the almanac, 1 January 1890 is day -3652 and the vernal equinox
    of 1890 day -3573. *)
Lemma almanac_vernal_equinox_1890 :
  @next_equinox almanac (@Date_jan1 almanac 1890) = - 3573.
Proof.
  cbn [next_equinox Date_jan1 almanac].
  replace (1890 - 1900)%Z with (- 10)%Z by reflexivity.
  rewrite (next_event_eval _ _ _ (- 21)) by lra. lra.
Qed.

Lemma season_chain_lost_before_day_0_witness :
  exists observer' azimuths summer,
    @season_azimuths almanac (fun _ => 46000) toy_observer (@Date_jan1 almanac 1890)
      = Ok (observer', azimuths,
            [@next_equinox almanac (@Date_jan1 almanac 1890); summer;
             @next_equinox almanac summer;
             @next_solstice almanac (@next_equinox almanac summer)]) /\
    - @next_equinox almanac (@Date_jan1 almanac 1890) - 36 < summer /\
    @next_solstice almanac (@next_equinox almanac (@Date_jan1 almanac 1890)) <= 0.
Proof.
  destruct (@season_azimuths_gets_through almanac almanac_rises (fun _ => 46000)
              toy_observer (@Date_jan1 almanac 1890)) as (o' & az & inst & H).
  assert (Hneg : @next_equinox almanac (@Date_jan1 almanac 1890) <= - 190).
  { rewrite almanac_vernal_equinox_1890. lra. }
  destruct (@season_chain_lost_before_day_0 almanac _ _ _ _ _ _
              almanac_contract Hneg H)
    as (summer & -> & Hs & _ & Hc & _).
  exists o', az, summer. auto.
Defined.

(** The rising and setting queries of the almanac, for an observer whose
    date lies between rising number [kr] and the next, and between setting
    number [ks] and the next. *)
Lemma almanac_find_rise_set_date (o o' : Observer) (b : Body) (rs : dict R)
    (kr ks : Z) :
  1 / 4 + IZR kr <= obs_date o < 1 / 4 + IZR kr + 1 ->
  3 / 4 + IZR ks <= obs_date o < 3 / 4 + IZR ks + 1 ->
  @find_rise_set almanac o b None = Ok (o', rs) ->
  obs_date o' =
    nearest_time (nearest_time (obs_date o) (1 / 4 + IZR kr) (1 / 4 + IZR kr + 1))
                 (3 / 4 + IZR ks) (3 / 4 + IZR ks + 1).
Proof.
  intros Hr Hs H.
  apply find_rise_set_queries in H
    as (pr & nr & ps & ns & Hpr & Hnr & Hps & Hns & ->).
  cbn [previous_rising next_rising previous_setting next_setting almanac]
    in Hpr, Hnr, Hps, Hns.
  injection Hpr as <-. injection Hnr as <-. injection Hps as <-. injection Hns as <-.
  unfold previous_event.
  rewrite (next_event_eval (1 / 4) 1 _ kr) by lra.
  rewrite (next_event_eval (3 / 4) 1 _ ks) by lra.
  f_equal; [f_equal | | ]; lra.
Qed.

(** The run for the year 1890, with the wall clock at day 46000 (December
    2025).  Vernal equinox: day -3573.  The Sun rose at -3573.75 and rises
    at -3572.75, so the rise distance is 0.25; it set at -3573.25 and sets
    at -3572.25, and from 0.25 the smaller distance is 3572.5.  The full
    moons around day 3572.5 are 3554 and 3583.5, and the later one is
    taken; the Moon leaves the observer at day 3582.5.  The next solstice
    after that is day 3640.6875, in December 1909, and the two later
    instants follow it; the chain of the specification stays in 1890. *)
Lemma almanac_year_1890 :
  exists observer' azimuths,
    @season_azimuths almanac (fun _ => 46000) toy_observer (@Date_jan1 almanac 1890)
      = Ok (observer', azimuths, [- 3573; 3640.6875; 3732; 3823.3125]) /\
    @spec_season_chain almanac (@Date_jan1 almanac 1890)
      = [- 3573; - 3481.6875; - 3390.375; - 3299.0625].
Proof.
  destruct (@season_azimuths_gets_through almanac almanac_rises (fun _ => 46000)
              toy_observer (@Date_jan1 almanac 1890)) as (o' & az & inst & H).
  assert (Hneg : @next_equinox almanac (@Date_jan1 almanac 1890) <= - 190).
  { rewrite almanac_vernal_equinox_1890. lra. }
  exists o', az. split.
  - rewrite H. do 2 f_equal.
    destruct (@season_instants_before_day_0 almanac almanac_contract _ _ _ _ _ _
                Hneg H) as (o1 & a1 & H1 & _ & ->).
    rewrite almanac_vernal_equinox_1890 in *.
    apply find_azimuths_calls in H1 as (os & sun & moon & Hsun & Hmoon).
    apply (almanac_find_rise_set_date _ _ _ _ (- 3574) (- 3574)) in Hsun;
      [ | unfold set_date; cbn [obs_date]; lra
        | unfold set_date; cbn [obs_date]; lra].
    unfold set_date in Hsun; cbn [obs_date] in Hsun.
    assert (Hos : obs_date os = 3572.5).
    { rewrite Hsun. unfold nearest_time.
      destruct (Rle_dec (Rabs (- 3573 - (1 / 4 + - 3574)))
                        (Rabs (- 3573 - (1 / 4 + - 3574 + 1))));
        destruct (Rle_dec _ _); abs_lra. }
    rewrite Hos in Hmoon.
    cbn [previous_full_moon next_full_moon almanac] in Hmoon.
    unfold previous_event in Hmoon.
    rewrite (next_event_eval 14 (59 / 2) _ 120) in Hmoon by lra.
    destruct (Rgt_dec _ _) as [_ | C]; [ | exfalso; apply C; lra].
    apply (almanac_find_rise_set_date _ _ _ _ 3583 3582) in Hmoon;
      [ | unfold set_date; cbn [obs_date]; lra
        | unfold set_date; cbn [obs_date]; lra].
    unfold set_date in Hmoon; cbn [obs_date] in Hmoon.
    assert (Ho1 : obs_date o1 = 3582.5).
    { rewrite Hmoon. unfold nearest_time.
      destruct (Rle_dec (Rabs (14 + 59 / 2 * (120 + 1) - (1 / 4 + 3583)))
                        (Rabs (14 + 59 / 2 * (120 + 1) - (1 / 4 + 3583 + 1))));
        destruct (Rle_dec _ _); abs_lra. }
    rewrite Ho1. cbn [next_equinox next_solstice almanac].
    rewrite (next_event_eval (159 / 2 + 1461 / 16) (1461 / 8) 3582.5 18) by lra.
    rewrite (next_event_eval (159 / 2) (1461 / 8) _ 19) by lra.
    rewrite (next_event_eval (159 / 2 + 1461 / 16) (1461 / 8) _ 19) by lra.
    repeat (f_equal; try lra).
  - unfold spec_season_chain. rewrite almanac_vernal_equinox_1890.
    cbn [next_equinox next_solstice almanac].
    rewrite (next_event_eval (159 / 2 + 1461 / 16) (1461 / 8) (- 3573) (- 21)) by lra.
    rewrite (next_event_eval (159 / 2) (1461 / 8) _ (- 20)) by lra.
    rewrite (next_event_eval (159 / 2 + 1461 / 16) (1461 / 8) _ (- 20)) by lra.
    repeat (f_equal; try lra).
Qed.

(** The run for the year 2024: the vernal equinox is past day 36, and the
    four instants are the chain of the specification. *)
Lemma almanac_vernal_equinox_2024 :
  36 <= @next_equinox almanac (@Date_jan1 almanac 2024).
Proof.
  cbn [next_equinox Date_jan1 almanac].
  replace (2024 - 1900)%Z with 124%Z by reflexivity.
  pose proof (next_event_after (159 / 2) (1461 / 8) (1461 / 4 * 124 + 1 / 2)).
  lra.
Qed.

Lemma season_chain_from_day_36_witness :
  exists observer' azimuths,
    @season_azimuths almanac (fun _ => 46000) toy_observer (@Date_jan1 almanac 2024)
      = Ok (observer', azimuths, @spec_season_chain almanac (@Date_jan1 almanac 2024)).
Proof.
  destruct (@season_azimuths_gets_through almanac almanac_rises (fun _ => 46000)
              toy_observer (@Date_jan1 almanac 2024)) as (o' & az & inst & H).
  exists o', az. rewrite H.
  destruct (@season_chain_from_day_36 almanac _ _ _ _ _ _ almanac_contract
              almanac_vernal_equinox_2024 H) as [-> _].
  reflexivity.
Defined.

Lemma matcher_enumerates_ordered_pairs_witness :
  In (wp_south, wp_north) (enumerated_pairs [wp_south; wp_north]) /\
  In (wp_north, wp_south) (enumerated_pairs [wp_south; wp_north]).
Proof.
  apply (matcher_enumerates_ordered_pairs one_degree_table [wp_south; wp_north]).
  - left. reflexivity.
  - right. left. reflexivity.
  - unfold wp_south, wp_north. intros H. discriminate H.
Defined.

Lemma match_iff_within_two_degrees_witness :
  angle_matches [("winter solstice", [("sun", [("set", 3)])])]%string
    "A" "B" 1 = [] /\
  angle_matches [("winter solstice", [("sun", [("set", 2.999)])])]%string
    "A" "B" 1 = [("A", "B", "winter solstice sunset")]%string.
Proof.
  destruct (match_iff_within_two_degrees one_degree_table [wp_south; wp_north])
    as (_ & _ & Hout & Hin).
  split.
  - apply Hout. abs_lra.
  - apply (Hin "A" "B" "winter solstice" "sun" "set")%string. abs_lra.
Defined.

(** * Further properties of the code *)

(** ** nearest_time and find_rise_set *)

Lemma nearest_time_between (t t1 t2 : R) :
  t1 <= t <= t2 -> 0 <= nearest_time t t1 t2 <= (t2 - t1) / 2.
Proof.
  intros H. unfold nearest_time. destruct (Rle_dec _ _); abs_lra.
Qed.

(** X1: what [nearest_time] returns is one of the two absolute differences
    and no larger than either; it does not depend on the order of the
    candidates; it is 0 exactly when the target is one of the candidates;
    and for a target between the candidates it is at most half the gap
    between them. *)
Theorem nearest_time_smaller_distance (t t1 t2 : R) :
  (nearest_time t t1 t2 = Rabs (t - t1) \/ nearest_time t t1 t2 = Rabs (t - t2)) /\
  nearest_time t t1 t2 <= Rabs (t - t1) /\
  nearest_time t t1 t2 <= Rabs (t - t2) /\
  nearest_time t t1 t2 = nearest_time t t2 t1 /\
  (nearest_time t t1 t2 = 0 <-> t = t1 \/ t = t2) /\
  (t1 <= t <= t2 -> 0 <= nearest_time t t1 t2 <= (t2 - t1) / 2).
Proof.
  unfold nearest_time.
  repeat split.
  - destruct (Rle_dec _ _); auto.
  - destruct (Rle_dec _ _); lra.
  - destruct (Rle_dec _ _); lra.
  - destruct (Rle_dec (Rabs (t - t1)) (Rabs (t - t2)));
      destruct (Rle_dec (Rabs (t - t2)) (Rabs (t - t1))); lra.
  - destruct (Rle_dec _ _); abs_lra.
  - intros [-> | ->]; destruct (Rle_dec _ _); abs_lra.
  - fold (nearest_time t t1 t2). apply nearest_time_between. assumption.
  - fold (nearest_time t t1 t2). apply nearest_time_between. assumption.
Qed.

Lemma nearest_time_smaller_distance_witness :
  0 <= nearest_time 10 9 12 <= (12 - 9) / 2.
Proof.
  apply (nearest_time_smaller_distance 10 9 12). lra.
Defined.

(** X2: a date argument of 0.0 is not a date for [find_rise_set]: it is
    ignored like [None]; any other date is first stored in the observer. *)
Theorem find_rise_set_date_argument {E : Ephemeris}
    (observer : Observer) (obj : Body) (d : R) :
  (d = 0 -> find_rise_set observer obj (Some d) = find_rise_set observer obj None) /\
  (d <> 0 -> find_rise_set observer obj (Some d)
             = find_rise_set (set_date observer d) obj None).
Proof.
  unfold find_rise_set, truthy_float. split; intros H;
    destruct (Req_dec_T d 0); try contradiction; reflexivity.
Qed.

Lemma find_rise_set_date_argument_witness :
  @find_rise_set toy_ephem toy_observer Sun (Some 0)
    = @find_rise_set toy_ephem toy_observer Sun None.
Proof.
  apply (@find_rise_set_date_argument toy_ephem toy_observer Sun 0). reflexivity.
Defined.

(** X3: [find_rise_set] returns exactly when the four rise/set queries of
    the provider return; when one raises, the first that does so (in the
    order previous rising, next rising, previous setting, next setting)
    decides the exception, and no azimuths are returned. *)
Theorem find_rise_set_returns_iff {E : Ephemeris} (observer : Observer) (obj : Body) :
  ((exists observer' riseset,
      find_rise_set observer obj None = Ok (observer', riseset)) <->
   (exists pr nr ps ns,
      previous_rising observer obj = Ok pr /\ next_rising observer obj = Ok nr /\
      previous_setting observer obj = Ok ps /\ next_setting observer obj = Ok ns)) /\
  (forall e, previous_rising observer obj = Raise e ->
             find_rise_set observer obj None = Raise e) /\
  (forall pr e, previous_rising observer obj = Ok pr ->
                next_rising observer obj = Raise e ->
                find_rise_set observer obj None = Raise e) /\
  (forall pr nr e, previous_rising observer obj = Ok pr ->
                   next_rising observer obj = Ok nr ->
                   previous_setting observer obj = Raise e ->
                   find_rise_set observer obj None = Raise e) /\
  (forall pr nr ps e, previous_rising observer obj = Ok pr ->
                      next_rising observer obj = Ok nr ->
                      previous_setting observer obj = Ok ps ->
                      next_setting observer obj = Raise e ->
                      find_rise_set observer obj None = Raise e).
Proof.
  unfold find_rise_set. split; [split | ].
  - intros (o' & rs & H).
    destruct (previous_rising observer obj) as [pr | ]; [ | discriminate].
    destruct (next_rising observer obj) as [nr | ]; [ | discriminate].
    destruct (previous_setting observer obj) as [ps | ]; [ | discriminate].
    destruct (next_setting observer obj) as [ns | ]; [ | discriminate].
    exists pr, nr, ps, ns. auto.
  - intros (pr & nr & ps & ns & -> & -> & -> & ->). cbn [bind]. eauto.
  - repeat split.
    + intros e ->. reflexivity.
    + intros pr e -> ->. reflexivity.
    + intros pr nr e -> -> ->. reflexivity.
    + intros pr nr ps e -> -> -> ->. reflexivity.
Qed.

(** X4: when the observer's date lies between the previous and the next
    rising, the rise azimuth that [find_rise_set] returns is the provider's
    azimuth for an observer whose date is between day 0 and half the time
    between the two risings, whatever the observer's own date was. *)
Theorem find_rise_set_rise_near_day_zero {E : Ephemeris}
    (observer observer' : Observer) (obj : Body) (riseset : dict R) (pr nr : R) :
  previous_rising observer obj = Ok pr ->
  next_rising observer obj = Ok nr ->
  pr <= obs_date observer <= nr ->
  find_rise_set observer obj None = Ok (observer', riseset) ->
  exists r,
    0 <= r <= (nr - pr) / 2 /\
    dict_get riseset "rise" = Some (compute obj (set_date observer r) / degree).
Proof.
  intros Hpr Hnr Hbetween. unfold find_rise_set. rewrite Hpr, Hnr. cbn [bind].
  destruct (previous_setting observer obj) as [ps | ]; [ | discriminate].
  destruct (next_setting observer obj) as [ns | ]; [ | discriminate].
  cbn [bind]. intros H. injection H as _ <-.
  exists (nearest_time (obs_date observer) pr nr). split.
  - apply nearest_time_between. assumption.
  - reflexivity.
Qed.

Lemma find_rise_set_rise_near_day_zero_witness :
  exists r,
    0 <= r <= (45000 + 1 / 4 - (45000 - 3 / 4)) / 2 /\
    dict_get [("rise"%string, 90); ("set"%string, 180)] "rise"
      = Some (@compute toy_ephem Sun (set_date toy_observer r) / degree).
Proof.
  apply (@find_rise_set_rise_near_day_zero toy_ephem toy_observer
           (set_date toy_observer (45000 - 1 / 2)) Sun).
  - reflexivity.
  - reflexivity.
  - cbn [toy_observer obs_date]. lra.
  - apply toy_find_rise_set. cbn [toy_observer obs_date]. lra.
Defined.

(** ** What the aggregation leaves in the observer and in the table *)

Lemma same_place_refl (o : Observer) : same_place o o.
Proof. unfold same_place. auto. Qed.

Lemma same_place_set_date (o o' : Observer) (d : R) :
  same_place o o' -> same_place o (set_date o' d).
Proof. unfold same_place, set_date. cbn [obs_lat obs_lon obs_elevation]. auto. Qed.

Lemma same_place_trans (o1 o2 o3 : Observer) :
  same_place o1 o2 -> same_place o2 o3 -> same_place o1 o3.
Proof. unfold same_place. intros (A & B & C) (A' & B' & C'). repeat split; congruence. Qed.

Lemma find_rise_set_place {E : Ephemeris} observer obj observer' riseset :
  find_rise_set observer obj None = Ok (observer', riseset) ->
  same_place observer observer' /\ 0 <= obs_date observer' /\
  exists rise_az set_az,
    riseset = [("rise"%string, rise_az); ("set"%string, set_az)].
Proof.
  unfold find_rise_set.
  destruct (previous_rising observer obj) as [pr | ]; [ | discriminate].
  destruct (next_rising observer obj) as [nr | ]; [ | discriminate].
  destruct (previous_setting observer obj) as [ps | ]; [ | discriminate].
  destruct (next_setting observer obj) as [ns | ]; [ | discriminate].
  cbn [bind]. intros H. injection H as <- <-. split; [ | split].
  - do 2 apply same_place_set_date. apply same_place_refl.
  - cbn [set_date obs_date]. apply nearest_time_nonneg.
  - eauto.
Qed.

Lemma find_azimuths_place {E : Ephemeris} now observer observer' riseset :
  find_azimuths now observer = Ok (observer', riseset) ->
  same_place observer observer' /\ 0 <= obs_date observer' /\
  exists sr ss mr ms,
    riseset = [("sun"%string, [("rise"%string, sr); ("set"%string, ss)]);
               ("full moon"%string, [("rise"%string, mr); ("set"%string, ms)])].
Proof.
  unfold find_azimuths.
  destruct (find_rise_set observer Sun None) as [[o1 sun] | e] eqn:Hsun;
    [ | discriminate].
  cbn [bind]. apply find_rise_set_place in Hsun as (Hp1 & _ & sr & ss & ->).
  set (o2 := if Rgt_dec _ _ then _ else _).
  assert (Hp2 : same_place observer o2).
  { unfold o2. destruct (Rgt_dec _ _); apply same_place_set_date; assumption. }
  destruct (find_rise_set o2 Moon None) as [[o3 moon] | e] eqn:Hmoon;
    [ | discriminate].
  cbn [bind]. apply find_rise_set_place in Hmoon as (Hp3 & Hd & mr & ms & ->).
  intros H. injection H as <- <-. split; [ | split].
  - eapply same_place_trans; eassumption.
  - assumption.
  - exists sr, ss, mr, ms. reflexivity.
Qed.

Lemma season_azimuths_shape {E : Ephemeris} clock observer start_date
    observer' azimuths instants :
  season_azimuths clock observer start_date = Ok (observer', azimuths, instants) ->
  same_place observer observer' /\ 0 <= obs_date observer' /\
  map entry_key (table_entries azimuths) = table_keys.
Proof.
  unfold season_azimuths. cbv zeta.
  destruct (find_azimuths (clock 0%nat) _) as [[o1 a1] | e] eqn:H1; [ | discriminate].
  cbn [bind].
  destruct (find_azimuths (clock 1%nat) _) as [[o2 a2] | e] eqn:H2; [ | discriminate].
  cbn [bind].
  destruct (find_azimuths (clock 2%nat) _) as [[o3 a3] | e] eqn:H3; [ | discriminate].
  cbn [bind].
  destruct (find_azimuths (clock 3%nat) _) as [[o4 a4] | e] eqn:H4; [ | discriminate].
  cbn [bind]. intros H. injection H as <- <- _.
  apply find_azimuths_place in H1 as (P1 & _ & ? & ? & ? & ? & ->).
  apply find_azimuths_place in H2 as (P2 & _ & ? & ? & ? & ? & ->).
  apply find_azimuths_place in H3 as (P3 & _ & ? & ? & ? & ? & ->).
  apply find_azimuths_place in H4 as (P4 & D4 & ? & ? & ? & ? & ->).
  split; [ | split].
  - assert (Q1 : same_place observer o1).
    { eapply same_place_trans; [ | exact P1]. apply same_place_set_date, same_place_refl. }
    assert (Q2 : same_place observer o2).
    { eapply same_place_trans; [ | exact P2]. apply same_place_set_date, Q1. }
    assert (Q3 : same_place observer o3).
    { eapply same_place_trans; [ | exact P3]. apply same_place_set_date, Q2. }
    eapply same_place_trans; [ | exact P4]. apply same_place_set_date, Q3.
  - assumption.
  - reflexivity.
Qed.

(** X5: when [find_alignments] gets through, the observer it leaves has the
    latitude, longitude and elevation it was given, and a date that is not
    negative, whatever the year asked for. *)
Theorem find_alignments_keeps_place {E : Ephemeris} (clock : nat -> R) (this_year : Z)
    (observer observer' : Observer) (waypoints : list Waypoint) (year : option Z)
    (matches : list Match) :
  find_alignments clock this_year observer waypoints year = Ok (observer', matches) ->
  obs_lat observer' = obs_lat observer /\
  obs_lon observer' = obs_lon observer /\
  obs_elevation observer' = obs_elevation observer /\
  0 <= obs_date observer'.
Proof.
  unfold find_alignments.
  destruct (season_azimuths clock observer _) as [[[o1 az] l] | e] eqn:Hs;
    [ | discriminate].
  cbn [bind]. intros H. injection H as <- _.
  apply season_azimuths_shape in Hs as ((A & B & C) & D & _). auto.
Qed.

Lemma toy_season_azimuths :
  exists observer' azimuths instants,
    @season_azimuths toy_ephem (fun _ => 0) toy_observer (@Date_jan1 toy_ephem 2024)
      = Ok (observer', azimuths, instants).
Proof.
  assert (Hstart : @Date_jan1 toy_ephem 2024 = 45260).
  { cbn [Date_jan1 toy_ephem]. replace (2024 - 1900)%Z with 124%Z by reflexivity. lra. }
  rewrite Hstart. unfold season_azimuths.
  cbn [next_equinox next_solstice toy_ephem].
  rewrite toy_find_azimuths by (unfold set_date; cbn [obs_date]; lra).
  cbn [bind]. unfold set_date at 1 2 3 4 5. cbn [obs_date obs_lat obs_lon obs_elevation].
  rewrite toy_find_azimuths by (unfold set_date; cbn [obs_date]; lra).
  cbn [bind]. unfold set_date at 1 2 3 4 5. cbn [obs_date obs_lat obs_lon obs_elevation].
  rewrite toy_find_azimuths by (unfold set_date; cbn [obs_date]; lra).
  cbn [bind]. unfold set_date at 1 2 3 4 5. cbn [obs_date obs_lat obs_lon obs_elevation].
  rewrite toy_find_azimuths by (unfold set_date; cbn [obs_date]; lra).
  cbn [bind]. do 3 eexists. reflexivity.
Qed.

Lemma toy_find_alignments (waypoints : list Waypoint) :
  exists observer' matches,
    @find_alignments toy_ephem (fun _ => 0) 2024 toy_observer waypoints None
      = Ok (observer', matches).
Proof.
  destruct toy_season_azimuths as (o' & az & l & H).
  unfold find_alignments. rewrite H. cbn [bind]. eauto.
Qed.

Lemma find_alignments_keeps_place_witness :
  exists observer',
    obs_lat observer' = obs_lat toy_observer /\
    obs_lon observer' = obs_lon toy_observer /\
    obs_elevation observer' = obs_elevation toy_observer /\
    0 <= obs_date observer'.
Proof.
  destruct (toy_find_alignments []) as (o' & ms & H).
  exists o'.
  exact (@find_alignments_keeps_place toy_ephem _ _ _ _ _ _ _ H).
Defined.

(** X6: when [find_alignments] gets through, the table it matched against
    had exactly sixteen entries: rise and set of "sun" and of "full moon"
    under each of the four season names, in that order; so the label of
    every match is one of sixteen strings such as "vernal equinox sunrise"
    or "winter solstice full moonset". *)
Theorem find_alignments_labels {E : Ephemeris} (clock : nat -> R) (this_year : Z)
    (observer observer' : Observer) (waypoints : list Waypoint) (year : option Z)
    (matches : list Match) :
  find_alignments clock this_year observer waypoints year = Ok (observer', matches) ->
  exists azimuths,
    matches = find_matches azimuths waypoints /\
    map entry_key (table_entries azimuths) = table_keys /\
    List.length (table_entries azimuths) = 16%nat /\
    forall n1 n2 label, In (n1, n2, label) matches ->
      exists season body event,
        In season season_names /\ In body body_names /\ In event event_names /\
        label = match_label season body event.
Proof.
  unfold find_alignments.
  destruct (season_azimuths clock observer _) as [[[o1 az] l] | e] eqn:Hs;
    [ | discriminate].
  cbn [bind]. intros H. injection H as _ <-.
  apply season_azimuths_shape in Hs as (_ & _ & Hkeys).
  exists az. split; [reflexivity | ]. split; [assumption | ]. split.
  - rewrite <- (length_map entry_key), Hkeys. reflexivity.
  - intros n1 n2 label Hin.
    rewrite find_matches_pairs, in_flat_map in Hin.
    destruct Hin as [[wp1 wp2] [_ Hin]]. cbn [fst snd] in Hin.
    rewrite angle_matches_entries, in_flat_map in Hin.
    destruct Hin as [[[[season body] event] az'] [He Hin]].
    apply in_entry_match in Hin as [_ Hm]. injection Hm as _ _ ->.
    assert (Hk : In (season, body, event) table_keys).
    { rewrite <- Hkeys. apply (in_map entry_key) in He. exact He. }
    exists season, body, event.
    unfold table_keys in Hk. apply in_flat_map in Hk as [s [Hs Hk]].
    apply in_flat_map in Hk as [b [Hb Hk]].
    apply in_map_iff in Hk as [ev [Heq Hev]]. injection Heq as <- <- <-.
    auto.
Qed.

Lemma find_alignments_labels_witness :
  exists azimuths matches,
    matches = find_matches azimuths [wp_south; wp_north] /\
    map entry_key (table_entries azimuths) = table_keys /\
    List.length (table_entries azimuths) = 16%nat.
Proof.
  destruct (toy_find_alignments [wp_south; wp_north]) as (o' & ms & H).
  destruct (@find_alignments_labels toy_ephem _ _ _ _ _ _ _ H)
    as (az & Hm & Hk & Hl & _).
  exists az, ms. auto.
Defined.

(** ** Bearings in special positions *)

Lemma atan2_origin : atan2 0 0 = 0.
Proof.
  unfold atan2. destruct (Rlt_dec 0 0) as [C | _]; [lra | reflexivity].
Qed.

(** X7: for two waypoints with the same latitude and longitude, whatever
    their names and elevations, [angle_between] returns 0. *)
Theorem angle_between_same_position (A B : Waypoint) :
  wp_lat A = wp_lat B -> wp_lon A = wp_lon B -> angle_between A B = 0.
Proof.
  intros Hlat Hlon. unfold angle_between. cbv zeta. rewrite Hlat, Hlon.
  replace (wp_lon B - wp_lon B) with 0 by lra.
  rewrite sin_0, cos_0.
  replace (0 * cos (wp_lat B)) with 0 by lra.
  replace (cos (wp_lat B) * sin (wp_lat B) - sin (wp_lat B) * cos (wp_lat B) * 1)
    with 0 by lra.
  rewrite atan2_origin.
  replace (360 - 0 / degree) with 360 by (pose proof degree_pos; field; lra).
  rewrite float_mod_once; lra.
Qed.

Lemma angle_between_same_position_witness :
  angle_between wp_south wp_south_again = 0.
Proof.
  apply (angle_between_same_position wp_south wp_south_again); reflexivity.
Defined.

(** X8: along a meridian (same longitude) [angle_between] returns 0 or
    180, and nothing else: y vanishes, so [atan2] is 0 or PI. *)
Theorem angle_between_along_meridian (A B : Waypoint) :
  wp_lon A = wp_lon B ->
  angle_between A B = 0 \/ angle_between A B = 180.
Proof.
  intros Hlon. unfold angle_between. cbv zeta. rewrite Hlon.
  replace (wp_lon B - wp_lon B) with 0 by lra.
  rewrite sin_0, cos_0.
  replace (0 * cos (wp_lat B)) with 0 by lra.
  set (x := cos (wp_lat A) * sin (wp_lat B) - sin (wp_lat A) * cos (wp_lat B) * 1).
  pose proof degree_pos as Hd. pose proof PI_RGT_0 as Hpi.
  unfold atan2. replace (0 / x) with 0 by (unfold Rdiv; lra).
  rewrite atan_0.
  destruct (Rlt_dec 0 x) as [Hx | Hx].
  - left. replace (360 - 0 / degree) with 360 by (field; lra).
    rewrite float_mod_once; lra.
  - destruct (Rlt_dec x 0) as [Hx' | Hx'].
    + right. destruct (Rle_dec 0 0) as [_ | C]; [ | lra].
      replace (360 - (0 + PI) / degree) with 180 by (unfold degree; field; lra).
      apply float_mod_small. lra.
    + left. destruct (Rlt_dec 0 0) as [C | _]; [lra | ].
      replace (360 - 0 / degree) with 360 by (field; lra).
      rewrite float_mod_once; lra.
Qed.

Lemma angle_between_along_meridian_witness :
  angle_between wp_south wp_meridian = 0 \/ angle_between wp_south wp_meridian = 180.
Proof.
  apply (angle_between_along_meridian wp_south wp_meridian). reflexivity.
Defined.

(** X9: between two waypoints of latitude 0, [angle_between] returns 270
    when the second longitude exceeds the first by less than PI, and 90
    when it is below the first by less than PI: a bearing counted from
    north towards west. *)
Theorem angle_between_along_equator (A B : Waypoint) :
  wp_lat A = 0 -> wp_lat B = 0 ->
  (0 < wp_lon B - wp_lon A < PI -> angle_between A B = 270) /\
  (- PI < wp_lon B - wp_lon A < 0 -> angle_between A B = 90).
Proof.
  intros HA HB. unfold angle_between. cbv zeta. rewrite HA, HB, sin_0, cos_0.
  set (d := wp_lon B - wp_lon A).
  replace (sin d * 1) with (sin d) by lra.
  replace (1 * 0 - 0 * 1 * cos d) with 0 by lra.
  pose proof degree_pos as Hd. pose proof PI_RGT_0 as Hpi.
  unfold atan2. destruct (Rlt_dec 0 0) as [C | _]; [lra | ].
  split; intros [Hlo Hhi].
  - assert (Hy : 0 < sin d) by (apply sin_gt_0; assumption).
    destruct (Rlt_dec 0 (sin d)) as [_ | C]; [ | contradiction].
    replace (360 - PI / 2 / degree) with 270 by (unfold degree; field; lra).
    apply float_mod_small. lra.
  - assert (Hy : sin d < 0) by (apply sin_lt_0_var; lra).
    destruct (Rlt_dec 0 (sin d)) as [C | _]; [lra | ].
    destruct (Rlt_dec (sin d) 0) as [_ | C]; [ | contradiction].
    replace (360 - - (PI / 2) / degree) with 450 by (unfold degree; field; lra).
    rewrite float_mod_once; lra.
Qed.

Lemma angle_between_along_equator_witness :
  angle_between wp_south wp_equator = 270 /\ angle_between wp_equator wp_south = 90.
Proof.
  pose proof PI_RGT_0 as Hpi. pose proof PI2_1 as H1. split.
  - apply (angle_between_along_equator wp_south wp_equator); try reflexivity.
    unfold wp_south, wp_equator. cbn [wp_lon]. lra.
  - apply (angle_between_along_equator wp_equator wp_south); try reflexivity.
    unfold wp_south, wp_equator. cbn [wp_lon]. lra.
Defined.

(** ** How many matches there can be *)

Lemma inner_pairs_length (a : Waypoint) (l : list Waypoint) :
  (List.length (flat_map (fun b => if waypoint_eqb a b then [] else [(a, b)]) l)
     <= List.length l)%nat /\
  (In a l ->
   (S (List.length (flat_map (fun b => if waypoint_eqb a b then [] else [(a, b)]) l))
      <= List.length l)%nat).
Proof.
  induction l as [ | b l [IH1 IH2]]; cbn [flat_map List.length].
  - split; [lia | intros []].
  - rewrite length_app.
    destruct (waypoint_eqb a b) eqn:Hab; cbn [List.length].
    + split; [lia | intros _; lia].
    + split; [lia | ]. intros [Hin | Hin].
      * apply waypoint_eqb_neq in Hab. congruence.
      * specialize (IH2 Hin). lia.
Qed.

Lemma flat_map_length_bound {A B : Type} (f : A -> list B) (k : nat) (l : list A) :
  (forall x, In x l -> (List.length (f x) <= k)%nat) ->
  (List.length (flat_map f l) <= List.length l * k)%nat.
Proof.
  induction l as [ | x l IH]; intros H; cbn [flat_map List.length]; [lia | ].
  rewrite length_app.
  specialize (H x (or_introl eq_refl)) as Hx.
  assert (Hl : (List.length (flat_map f l) <= List.length l * k)%nat).
  { apply IH. intros y Hy. apply H. right. assumption. }
  lia.
Qed.

Lemma enumerated_pairs_length (waypoints : list Waypoint) :
  (List.length (enumerated_pairs waypoints)
     <= List.length waypoints * (List.length waypoints - 1))%nat.
Proof.
  unfold enumerated_pairs. apply flat_map_length_bound.
  intros a Ha. pose proof (proj2 (inner_pairs_length a waypoints) Ha). lia.
Qed.

Lemma entry_match_length n1 n2 angle entry :
  (List.length (entry_match n1 n2 angle entry) <= 1)%nat.
Proof.
  destruct entry as [[[season body] event] az]. unfold entry_match.
  destruct (Rlt_dec _ _); cbn [List.length]; lia.
Qed.

Lemma find_matches_length azimuths waypoints :
  (List.length (find_matches azimuths waypoints)
     <= List.length (table_entries azimuths)
        * (List.length waypoints * (List.length waypoints - 1)))%nat.
Proof.
  rewrite find_matches_pairs.
  assert (H : (List.length
                 (flat_map (fun p => angle_matches azimuths (wp_name (fst p))
                                       (wp_name (snd p)) (angle_between (fst p) (snd p)))
                    (enumerated_pairs waypoints))
               <= List.length (enumerated_pairs waypoints)
                  * List.length (table_entries azimuths))%nat).
  { apply flat_map_length_bound. intros p _. rewrite angle_matches_entries.
    pose proof (flat_map_length_bound
                  (entry_match (wp_name (fst p)) (wp_name (snd p))
                     (angle_between (fst p) (snd p)))
                  1 (table_entries azimuths)) as Hb.
    rewrite Nat.mul_1_r in Hb. apply Hb. intros e _. apply entry_match_length. }
  pose proof (enumerated_pairs_length waypoints) as Hp.
  nia.
Qed.

(** X10: for n waypoints the matcher returns at most n (n - 1) matches per
    entry of the table; so a run of [find_alignments] that gets through
    returns at most 16 n (n - 1) matches. *)
Theorem match_count_bound {E : Ephemeris} (waypoints : list Waypoint) :
  (forall azimuths,
     (List.length (find_matches azimuths waypoints)
        <= List.length (table_entries azimuths)
           * (List.length waypoints * (List.length waypoints - 1)))%nat) /\
  (forall clock this_year observer year observer' matches,
     find_alignments clock this_year observer waypoints year = Ok (observer', matches) ->
     (List.length matches
        <= 16 * (List.length waypoints * (List.length waypoints - 1)))%nat).
Proof.
  split; [intros azimuths; apply find_matches_length | ].
  intros clock this_year observer year observer' matches H.
  unfold find_alignments in H.
  destruct (season_azimuths clock observer _) as [[[o1 az] l] | e] eqn:Hs;
    [ | discriminate].
  cbn [bind] in H. injection H as _ <-.
  apply season_azimuths_shape in Hs as (_ & _ & Hkeys).
  pose proof (find_matches_length az waypoints) as Hb.
  assert (Hlen : List.length (table_entries az) = 16%nat).
  { rewrite <- (length_map entry_key), Hkeys. reflexivity. }
  rewrite Hlen in Hb. exact Hb.
Qed.

Lemma enumerated_pairs_none (waypoints : list Waypoint) :
  (forall a b, In a waypoints -> In b waypoints -> a = b) ->
  enumerated_pairs waypoints = [].
Proof.
  intros Hall. destruct (enumerated_pairs waypoints) as [ | [a b] rest] eqn:Hp;
    [reflexivity | ].
  assert (Hin : In (a, b) (enumerated_pairs waypoints)) by (rewrite Hp; left; reflexivity).
  apply in_enumerated_pairs in Hin as (Ha & Hb & Hne).
  exfalso. apply Hne. apply Hall; assumption.
Qed.

(** X11: when all waypoints of the list are equal as records (in
    particular for no waypoint, for one, or for one loaded several times)
    the matcher returns no match, whatever the table holds. *)
Theorem no_match_without_two_waypoints
    (azimuths : dict (dict (dict R))) (waypoints : list Waypoint) :
  (forall a b, In a waypoints -> In b waypoints -> a = b) ->
  find_matches azimuths waypoints = [].
Proof.
  intros Hall. rewrite find_matches_pairs, (enumerated_pairs_none _ Hall).
  reflexivity.
Qed.

Lemma no_match_without_two_waypoints_witness :
  find_matches one_degree_table [wp_south; wp_south] = [].
Proof.
  apply (no_match_without_two_waypoints one_degree_table [wp_south; wp_south]).
  intros a b [<- | [<- | []]] [<- | [<- | []]]; reflexivity.
Defined.

(** ** More on the loader *)

Section LoaderMore.
Variable float_of_string : string -> option R.

Lemma read_waypoint_raises st pt :
  float_of_string (getAttribute "lat" pt) = None \/
  float_of_string (getAttribute "lon" pt) = None ->
  exists msg, read_waypoint float_of_string st pt = Raise (ValueError msg).
Proof.
  destruct st as [[o w] n]. unfold read_waypoint, to_float.
  destruct (float_of_string (getAttribute "lat" pt)) as [lat | ].
  - intros [H | H]; [discriminate | ]. rewrite H. cbn [bind]. eauto.
  - intros _. cbn [bind]. eauto.
Qed.

Lemma read_waypoint_cases st pt :
  (exists msg, read_waypoint float_of_string st pt = Raise (ValueError msg)) \/
  (exists st', read_waypoint float_of_string st pt = Ok st').
Proof.
  destruct (float_of_string (getAttribute "lat" pt)) as [lat | ] eqn:Hlat;
    [ | left; apply read_waypoint_raises; auto].
  destruct (float_of_string (getAttribute "lon" pt)) as [lon | ] eqn:Hlon;
    [ | left; apply read_waypoint_raises; auto].
  right. destruct st as [[o w] n].
  destruct (read_waypoint_ok float_of_string o w n pt) as (o' & r & n' & H & _);
    [congruence | congruence | eauto].
Qed.

Lemma read_waypoints_raises (waypts : list Node) :
  forall st,
  (exists pt, In pt waypts /\
     (float_of_string (getAttribute "lat" pt) = None \/
      float_of_string (getAttribute "lon" pt) = None)) ->
  exists msg, read_waypoints float_of_string st waypts = Raise (ValueError msg).
Proof.
  induction waypts as [ | p rest IH]; intros st (pt & Hin & Hbad).
  - destruct Hin.
  - cbn [read_waypoints].
    destruct (read_waypoint_cases st p) as [(msg & ->) | (st' & Hok)].
    + cbn [bind]. eauto.
    + rewrite Hok. cbn [bind]. destruct Hin as [<- | Hin].
      * destruct (read_waypoint_raises st p Hbad) as (msg & Hr). congruence.
      * apply IH. eauto.
Qed.

End LoaderMore.

(** X12: when a [<wpt>] of the file has a [lat] or [lon] attribute that
    [float] rejects, the loader raises [ValueError]: it returns no record
    at all, not those of the other waypoints, and puts no default in place
    of the coordinate. *)
Theorem loader_rejects_bad_coordinates
    (float_of_string : string -> option R) (dom : Document) (pt : Node) :
  In pt (document_getElementsByTagName "wpt" dom) ->
  float_of_string (getAttribute "lat" pt) = None \/
  float_of_string (getAttribute "lon" pt) = None ->
  exists msg, read_track_file_GPX float_of_string dom = Raise (ValueError msg).
Proof.
  intros Hin Hbad. unfold read_track_file_GPX.
  destruct (read_waypoints_raises float_of_string
              (document_getElementsByTagName "wpt" dom) (None, [], 0%nat))
    as (msg & Hr); [eauto | ].
  destruct (document_getElementsByTagName "wpt" dom) as [ | p rest];
    [destruct Hin | ].
  rewrite Hr. cbn [bind]. eauto.
Qed.

Lemma loader_rejects_bad_coordinates_witness :
  exists msg, read_track_file_GPX float_of_digits no_lat_gpx = Raise (ValueError msg).
Proof.
  apply (loader_rejects_bad_coordinates float_of_digits no_lat_gpx
           (Element "wpt" [("lon", "2")] [])%string).
  - left. reflexivity.
  - left. reflexivity.
Defined.

Lemma lower_point_name (k : nat) :
  String.eqb (lower (point_name k)) "observer" = false.
Proof. reflexivity. Qed.

Lemma find_app {A : Type} (f : A -> bool) (l1 l2 : list A) :
  find f (l1 ++ l2) = match find f l1 with Some x => Some x | None => find f l2 end.
Proof.
  induction l1 as [ | x l1 IH]; cbn [app find]; [reflexivity | ].
  destruct (f x); [reflexivity | exact IH].
Qed.

Section LoaderNames.
Variable float_of_string : string -> option R.

Lemma read_waypoint_step o w n pt o1 w1 n1 :
  read_waypoint float_of_string (o, w, n) pt = Ok (o1, w1, n1) ->
  exists r,
    w1 = w ++ [r] /\
    n1 = (if is_unnamed pt then S n else n) /\
    (is_unnamed pt = false -> get_DOM_text pt (Some "name"%string) = Some (wp_name r)) /\
    (is_unnamed pt = true -> wp_name r = point_name (S n)) /\
    o1 = (if is_observer_wpt pt then Some pt else o).
Proof.
  unfold read_waypoint, is_unnamed, is_observer_wpt.
  destruct (to_float float_of_string (getAttribute "lat" pt)) as [lat | ];
    [ | discriminate].
  destruct (to_float float_of_string (getAttribute "lon" pt)) as [lon | ];
    [ | discriminate].
  cbn [bind].
  destruct (get_DOM_text pt (Some "name"%string)) as [s | ].
  - destruct (String.eqb s "") eqn:Hs.
    + apply String.eqb_eq in Hs. subst s. rewrite lower_point_name.
      intros H. injection H as <- <- <-. eexists. split; [reflexivity | ].
      cbn [wp_name lower String.eqb]. repeat split; auto; discriminate.
    + intros H. injection H as <- <- <-. eexists. split; [reflexivity | ].
      cbn [wp_name]. repeat split; auto; discriminate.
  - rewrite lower_point_name.
    intros H. injection H as <- <- <-. eexists. split; [reflexivity | ].
    cbn [wp_name]. repeat split; auto; discriminate.
Qed.

Lemma read_waypoints_names (waypts : list Node) :
  forall o w n o' w' n',
  read_waypoints float_of_string (o, w, n) waypts = Ok (o', w', n') ->
  exists records,
    w' = w ++ records /\
    o' = match find is_observer_wpt (rev waypts) with
         | Some p => Some p
         | None => o
         end /\
    forall i pt r,
      nth_error waypts i = Some pt -> nth_error records i = Some r ->
      (is_unnamed pt = false ->
       get_DOM_text pt (Some "name"%string) = Some (wp_name r)) /\
      (is_unnamed pt = true ->
       wp_name r
         = point_name (n + List.length (filter is_unnamed (firstn (S i) waypts)))).
Proof.
  induction waypts as [ | p rest IH]; intros o w n o' w' n' H.
  - cbn [read_waypoints] in H. injection H as <- <- <-.
    exists []. rewrite app_nil_r. cbn [rev find].
    split; [reflexivity | split; [reflexivity | ]].
    intros [ | i] pt r Hi; discriminate.
  - cbn [read_waypoints] in H.
    destruct (read_waypoint float_of_string (o, w, n) p) as [[[o1 w1] n1] | e] eqn:Hp;
      [ | discriminate].
    cbn [bind] in H.
    apply read_waypoint_step in Hp as (r0 & -> & -> & Hnamed & Hunnamed & ->).
    apply IH in H as (records & -> & -> & Hrest).
    exists (r0 :: records). rewrite <- app_assoc. split; [reflexivity | ]. split.
    + cbn [rev]. rewrite find_app. cbn [find].
      destruct (find is_observer_wpt (rev rest)); [reflexivity | ].
      destruct (is_observer_wpt p); reflexivity.
    + intros [ | i] pt r Hi Hr.
      * cbn [nth_error] in Hi, Hr. injection Hi as <-. injection Hr as <-.
        split; [assumption | ]. intros Hu. cbn [firstn filter]. rewrite Hu.
        cbn [List.length]. rewrite Hunnamed by assumption. f_equal. lia.
      * cbn [nth_error] in Hi, Hr. destruct (Hrest i pt r Hi Hr) as [Hn Hu].
        split; [assumption | ]. intros Hpt. rewrite (Hu Hpt). f_equal.
        change (firstn (S (S i)) (p :: rest)) with (p :: firstn (S i) rest).
        cbn [filter]. destruct (is_unnamed p); cbn [List.length]; lia.
Qed.

End LoaderNames.

(** X13: in what the loader returns, a waypoint whose [<name>] holds a non
    empty text carries that text as its name; the others are called
    "Point k", where k counts the unnamed waypoints of the file up to and
    including this one (named waypoints do not advance the count). *)
Theorem loader_names (float_of_string : string -> option R) (dom : Document)
    (observer : option Node) (waypoints : list Waypoint) :
  read_track_file_GPX float_of_string dom = Ok (Pair observer waypoints) ->
  forall i pt w,
    nth_error (document_getElementsByTagName "wpt" dom) i = Some pt ->
    nth_error waypoints i = Some w ->
    (is_unnamed pt = false ->
     get_DOM_text pt (Some "name"%string) = Some (wp_name w)) /\
    (is_unnamed pt = true ->
     wp_name w = point_name (List.length (filter is_unnamed
                   (firstn (S i) (document_getElementsByTagName "wpt" dom))))).
Proof.
  unfold read_track_file_GPX.
  destruct (document_getElementsByTagName "wpt" dom) as [ | p rest] eqn:Hw;
    [discriminate | ].
  destruct (read_waypoints float_of_string (None, [], 0%nat) (p :: rest))
    as [[[o1 w1] n1] | e] eqn:Hr; [ | discriminate].
  cbn [bind]. intros H. injection H as <- <-.
  apply read_waypoints_names in Hr as (records & -> & _ & Hall).
  cbn [app]. intros i pt w Hi Hw'. exact (Hall i pt w Hi Hw').
Qed.

Lemma three_wpt_gpx_loaded :
  read_track_file_GPX float_of_digits three_wpt_gpx =
    Ok (Pair (Some (Element "wpt" [("lat", "3"); ("lon", "4")]
                      [Element "name" [] [TextNode "OBSERVER"]]))
             [mkWaypoint "Point 1" (INR 1) (INR 2) 500;
              mkWaypoint "OBSERVER" (INR 3) (INR 4) 500;
              mkWaypoint "Point 2" (INR 5) (INR 6) 500])%string.
Proof. reflexivity. Qed.

Lemma loader_names_witness :
  wp_name (mkWaypoint "Point 2" (INR 5) (INR 6) 500) = point_name 2.
Proof.
  apply (loader_names float_of_digits three_wpt_gpx _ _ three_wpt_gpx_loaded 2%nat
           (Element "wpt" [("lat", "5"); ("lon", "6")] [Element "name" [] []])%string
           (mkWaypoint "Point 2" (INR 5) (INR 6) 500)).
  - reflexivity.
  - reflexivity.
  - reflexivity.
Defined.

(** X14: the observer element the loader returns is the last [<wpt>] of
    the file whose name text is "observer" in any mix of cases, and [None]
    when there is none; a generated name "Point k" never counts. *)
Theorem loader_observer_is_last (float_of_string : string -> option R)
    (dom : Document) (observer : option Node) (waypoints : list Waypoint) :
  read_track_file_GPX float_of_string dom = Ok (Pair observer waypoints) ->
  observer = find is_observer_wpt (rev (document_getElementsByTagName "wpt" dom)).
Proof.
  unfold read_track_file_GPX.
  destruct (document_getElementsByTagName "wpt" dom) as [ | p rest] eqn:Hw;
    [discriminate | ].
  destruct (read_waypoints float_of_string (None, [], 0%nat) (p :: rest))
    as [[[o1 w1] n1] | e] eqn:Hr; [ | discriminate].
  cbn [bind]. intros H. injection H as <- <-.
  apply read_waypoints_names in Hr as (records & _ & -> & _).
  destruct (find is_observer_wpt (rev (p :: rest))); reflexivity.
Qed.

Lemma loader_observer_is_last_witness :
  Some (Element "wpt" [("lat", "3"); ("lon", "4")]
          [Element "name" [] [TextNode "OBSERVER"]])%string
    = find is_observer_wpt (rev (document_getElementsByTagName "wpt" three_wpt_gpx)).
Proof.
  exact (loader_observer_is_last float_of_digits three_wpt_gpx _ _ three_wpt_gpx_loaded).
Defined.

(** ** More on the script body *)

Section MainMore.
Context {E : Ephemeris}.
Variable float_of_string : string -> option R.
Variable parse : string -> Result Document.

(** When every file loads, the loop hands over the waypoints of all files
    in order, and as observer point the element returned for the last file
    that has one. *)
Lemma load_files_ok gpxfiles results :
  Forall2 (file_loads float_of_string parse) gpxfiles results ->
  forall waypoints observerPoint out,
  load_files float_of_string parse gpxfiles waypoints observerPoint out
    = (out, Ok (waypoints ++ List.concat (map snd results),
                fold_left (fun op r => match fst r with
                                       | Some pt => Some (ObsElement pt)
                                       | None => op
                                       end) results observerPoint)).
Proof.
  induction 1 as [ | filename [obs wp] gpxfiles results (dom & Hparse & Hload) Hall IH];
    intros waypoints observerPoint out.
  - cbn [load_files map List.concat fold_left]. rewrite app_nil_r. reflexivity.
  - cbn [load_files map List.concat fold_left fst snd] in *.
    rewrite Hparse. cbn [bind]. rewrite Hload. cbn [bind unpack2].
    pose proof (loader_pair_nonempty _ _ _ _ Hload) as Hne.
    destruct wp as [ | w wp]; [contradiction | ].
    rewrite IH, <- app_assoc. destruct obs; reflexivity.
Qed.

Lemma fold_observer_some (results : list (option Node * list Waypoint)) :
  forall start,
  (exists pt, start = Some (ObsElement pt)) \/
  (exists r pt, In r results /\ fst r = Some pt) ->
  exists pt, fold_left (fun op r => match fst r with
                                    | Some pt => Some (ObsElement pt)
                                    | None => op
                                    end) results start = Some (ObsElement pt).
Proof.
  induction results as [ | [obs wp] results IH]; intros start Hsome.
  - destruct Hsome as [(pt & ->) | (r & pt & [] & _)]. cbn [fold_left]. eauto.
  - cbn [fold_left fst]. apply IH. destruct obs as [p | ]; [left; eauto | ].
    destruct Hsome as [Hstart | (r & pt & [<- | Hin] & Hr)].
    + left. assumption.
    + discriminate Hr.
    + right. eauto.
Qed.

Lemma fold_observer_none (results : list (option Node * list Waypoint)) :
  forall start,
  (forall r, In r results -> fst r = None) ->
  fold_left (fun op r => match fst r with
                         | Some pt => Some (ObsElement pt)
                         | None => op
                         end) results start = start.
Proof.
  induction results as [ | [obs wp] results IH]; intros start Hnone.
  - reflexivity.
  - pose proof (Hnone (obs, wp) (or_introl eq_refl)) as H0. cbn [fst] in H0.
    subst obs. cbn [fold_left fst]. apply IH.
    intros r Hr. apply Hnone. right. assumption.
Qed.

Lemma concat_loaded_nonempty gpxfiles results :
  Forall2 (file_loads float_of_string parse) gpxfiles results ->
  gpxfiles <> [] ->
  exists first rest, List.concat (map snd results) = first :: rest.
Proof.
  intros Hall Hne. destruct Hall as [ | filename [obs wp] gpxfiles results
                                        (dom & _ & Hload) _]; [contradiction | ].
  cbn [map List.concat snd fst] in *.
  pose proof (loader_pair_nonempty _ _ _ _ Hload) as Hwp.
  destruct wp as [ | w wp]; [contradiction | ].
  cbn [app]. eauto.
Qed.

End MainMore.

(** X15: when every file loads and one of them holds a waypoint named
    "observer" (so that the loader returns its DOM element), the run ends
    with a [TypeError] at line 248, where the element is indexed like a
    list: nothing has been printed and no ephemeris query has been made,
    with or without [-o]. *)
Theorem observer_waypoint_ends_in_type_error {E : Ephemeris}
    (float_of_string : string -> option R) (parse : string -> Result Document)
    (clock : nat -> R) (this_year : Z) (today : R) (observerPoint : option Waypoint)
    (gpxfiles : list string) (results : list (option Node * list Waypoint)) :
  Forall2 (file_loads float_of_string parse) gpxfiles results ->
  (exists r pt, In r results /\ fst r = Some pt) ->
  main float_of_string parse clock this_year today observerPoint gpxfiles
    = ([], Uncaught (TypeError "'Element' object is not subscriptable")).
Proof.
  intros Hall Hobs. unfold main.
  rewrite (load_files_ok float_of_string parse gpxfiles results Hall).
  cbn [app].
  assert (Hne : gpxfiles <> []).
  { destruct Hall; [ | discriminate]. destruct Hobs as (r & pt & [] & _). }
  destruct (concat_loaded_nonempty float_of_string parse gpxfiles results Hall Hne)
    as (first & rest & ->).
  destruct (fold_observer_some results (option_map ObsList observerPoint)
              (or_intror Hobs)) as (pt & ->).
  reflexivity.
Qed.

Lemma three_gpx_loads :
  Forall2 (file_loads float_of_digits example_parse) ["three.gpx"%string]
    [(Some (Element "wpt" [("lat", "3"); ("lon", "4")]
              [Element "name" [] [TextNode "OBSERVER"]]),
      [mkWaypoint "Point 1" (INR 1) (INR 2) 500;
       mkWaypoint "OBSERVER" (INR 3) (INR 4) 500;
       mkWaypoint "Point 2" (INR 5) (INR 6) 500])%string].
Proof.
  constructor; [ | constructor].
  exists three_wpt_gpx. split; reflexivity.
Qed.

Lemma observer_waypoint_ends_in_type_error_witness :
  @main toy_ephem float_of_digits example_parse (fun _ => 0) 2024 45000 None
     ["three.gpx"%string]
    = ([], Uncaught (TypeError "'Element' object is not subscriptable")).
Proof.
  apply (@observer_waypoint_ends_in_type_error toy_ephem float_of_digits example_parse
           (fun _ => 0) 2024%Z 45000 None _ _ three_gpx_loads).
  do 2 eexists. split; [left; reflexivity | reflexivity].
Defined.

(** X16: when every file loads and none holds a waypoint named "observer",
    [find_alignments] is run on the waypoints of all files, in the order of
    the files, for an observer at the point given with [-o], or else at the
    first waypoint (which is then printed first); latitude and longitude
    are multiplied by [ephem.degree], the elevation is taken as it is; the
    observer is printed, and then the matches if [find_alignments] gets
    through. *)
Theorem run_with_plain_waypoints {E : Ephemeris}
    (float_of_string : string -> option R) (parse : string -> Result Document)
    (clock : nat -> R) (this_year : Z) (today : R) (observerPoint : option Waypoint)
    (gpxfiles : list string) (results : list (option Node * list Waypoint)) :
  Forall2 (file_loads float_of_string parse) gpxfiles results ->
  gpxfiles <> [] ->
  (forall r, In r results -> fst r = None) ->
  exists first rest,
    List.concat (map snd results) = first :: rest /\
    let p := match observerPoint with Some w => w | None => first end in
    let pre := match observerPoint with
               | Some _ => []
               | None => [PrintFirstWaypoint first]
               end in
    let observer :=
      mkObserver (wp_lat p * degree) (wp_lon p * degree) (wp_ele p) today in
    main float_of_string parse clock this_year today observerPoint gpxfiles
      = match find_alignments clock this_year observer (first :: rest) None with
        | Raise e => (pre ++ [PrintObserver observer], Uncaught e)
        | Ok (_, matches) =>
            (pre ++ [PrintObserver observer; PrintMatches matches], Finished)
        end.
Proof.
  intros Hall Hne Hnone.
  destruct (concat_loaded_nonempty float_of_string parse gpxfiles results Hall Hne)
    as (first & rest & Hcat).
  exists first, rest. split; [assumption | ]. cbv zeta. unfold main.
  rewrite (load_files_ok float_of_string parse gpxfiles results Hall).
  cbn [app]. rewrite Hcat, (fold_observer_none results _ Hnone).
  destruct observerPoint as [w | ]; cbn [option_map observer_of app].
  - destruct (find_alignments clock this_year _ (first :: rest) None) as [[o ms] | e];
      reflexivity.
  - destruct (find_alignments clock this_year _ (first :: rest) None) as [[o ms] | e];
      reflexivity.
Qed.

Lemma two_gpx_loads :
  Forall2 (file_loads float_of_digits example_parse) ["two.gpx"%string]
    [(None, [mkWaypoint "A" (INR 34) (INR 103) 500;
             mkWaypoint "B" (INR 35) (INR 104) 500])%string].
Proof.
  constructor; [ | constructor].
  exists two_wpt_gpx. split; reflexivity.
Qed.

Lemma run_with_plain_waypoints_witness :
  exists first rest observer,
    [mkWaypoint "A" (INR 34) (INR 103) 500; mkWaypoint "B" (INR 35) (INR 104) 500]%string
      = first :: rest /\
    observer = mkObserver (wp_lat first * degree) (wp_lon first * degree)
                 (wp_ele first) 45000 /\
    @main toy_ephem float_of_digits example_parse (fun _ => 0) 2024 45000 None
       ["two.gpx"%string]
      = match @find_alignments toy_ephem (fun _ => 0) 2024 observer (first :: rest) None with
        | Raise e => ([PrintFirstWaypoint first; PrintObserver observer], Uncaught e)
        | Ok (_, matches) =>
            ([PrintFirstWaypoint first; PrintObserver observer; PrintMatches matches],
             Finished)
        end.
Proof.
  destruct (@run_with_plain_waypoints toy_ephem float_of_digits example_parse
              (fun _ => 0) 2024%Z 45000 None _ _ two_gpx_loads)
    as (first & rest & Hcat & Hmain).
  - discriminate.
  - intros r [<- | []]. reflexivity.
  - exists first, rest. eexists. split; [exact Hcat | ]. split; [reflexivity | ].
    exact Hmain.
Defined.

Section MainExit.
Context {E : Ephemeris}.
Variable float_of_string : string -> option R.
Variable parse : string -> Result Document.

Lemma load_files_waypoints_nonempty gpxfiles :
  forall waypoints observerPoint out out' waypoints' observerPoint',
  load_files float_of_string parse gpxfiles waypoints observerPoint out
    = (out', Ok (waypoints', observerPoint')) ->
  waypoints <> [] \/ gpxfiles <> [] ->
  waypoints' <> [].
Proof.
  induction gpxfiles as [ | filename rest IH];
    intros waypoints observerPoint out out' waypoints' observerPoint' H Hne.
  - cbn [load_files] in H. injection H as _ <- _.
    destruct Hne as [Hne | Hne]; [assumption | contradiction].
  - cbn [load_files] in H.
    destruct (parse filename) as [dom | e]; [ | discriminate]. cbn [bind] in H.
    destruct (read_track_file_GPX float_of_string dom) as [[ | obs wp] | e] eqn:Hload;
      [discriminate | | discriminate].
    cbn [bind unpack2] in H.
    apply loader_pair_nonempty in Hload.
    destruct wp as [ | w wp]; [contradiction | ].
    apply IH in H; [assumption | ]. left.
    destruct waypoints; discriminate.
Qed.

End MainExit.

(** X17: with at least one file on the command line, the run never prints
    the help text, never prints "No waypoints in", and never ends through
    [sys.exit]: it ends with an uncaught exception or after printing the
    matches. *)
Theorem run_never_exits_with_help {E : Ephemeris}
    (float_of_string : string -> option R) (parse : string -> Result Document)
    (clock : nat -> R) (this_year : Z) (today : R) (observerPoint : option Waypoint)
    (gpxfiles : list string) :
  gpxfiles <> [] ->
  ~ In PrintHelp
       (fst (main float_of_string parse clock this_year today observerPoint gpxfiles)) /\
  (forall filename,
     ~ In (PrintNoWaypoints filename)
          (fst (main float_of_string parse clock this_year today observerPoint gpxfiles))) /\
  ((exists e, snd (main float_of_string parse clock this_year today observerPoint gpxfiles)
              = Uncaught e) \/
   snd (main float_of_string parse clock this_year today observerPoint gpxfiles)
     = Finished).
Proof.
  intros Hne. split; [ | split].
  - unfold main.
    pose proof (load_files_prints_nothing float_of_string parse gpxfiles []
                  (option_map ObsList observerPoint) []) as Hout.
    destruct (load_files float_of_string parse gpxfiles [] (option_map ObsList observerPoint) [])
      as [out [[waypoints op] | e]] eqn:Hload; cbn [fst] in Hout; subst out;
      [ | intros []].
    pose proof (load_files_waypoints_nonempty float_of_string parse _ _ _ _ _ _ _ Hload
                  (or_intror Hne)) as Hw.
    destruct waypoints as [ | first waypoints]; [contradiction | ].
    destruct op as [p | ].
    + destruct (observer_of today p) as [observer | e]; [ | intros []].
      destruct (find_alignments clock this_year observer (first :: waypoints) None)
        as [[o ms] | e]; cbn; intros H;
        repeat (destruct H as [H | H]; [discriminate | ]); assumption.
    + cbn [observer_of].
      destruct (find_alignments clock this_year _ (first :: waypoints) None)
        as [[o ms] | e]; cbn; intros H;
        repeat (destruct H as [H | H]; [discriminate | ]); assumption.
  - intros filename. apply main_never_reports_no_waypoints.
  - unfold main.
    destruct (load_files float_of_string parse gpxfiles [] (option_map ObsList observerPoint) [])
      as [out [[waypoints op] | e]] eqn:Hload; [ | left; eexists; reflexivity].
    pose proof (load_files_waypoints_nonempty float_of_string parse _ _ _ _ _ _ _ Hload
                  (or_intror Hne)) as Hw.
    destruct waypoints as [ | first waypoints]; [contradiction | ].
    destruct op as [p | ].
    + destruct (observer_of today p) as [observer | e];
        [ | left; eexists; reflexivity].
      destruct (find_alignments clock this_year observer (first :: waypoints) None)
        as [[o ms] | e]; [right; reflexivity | left; eexists; reflexivity].
    + cbn [observer_of].
      destruct (find_alignments clock this_year _ (first :: waypoints) None)
        as [[o ms] | e]; [right; reflexivity | left; eexists; reflexivity].
Qed.

Lemma run_never_exits_with_help_witness :
  ~ In PrintHelp
       (fst (@main toy_ephem float_of_digits (fun _ => Ok empty_gpx) (fun _ => 0)
               2024 45000 None ["empty.gpx"%string])).
Proof.
  apply (@run_never_exits_with_help toy_ephem float_of_digits (fun _ => Ok empty_gpx)
           (fun _ => 0) 2024%Z 45000 None ["empty.gpx"%string]).
  discriminate.
Defined.

(** ** The [-o] argument *)

Lemma split_comma_nonempty (s : string) : split_comma s <> [].
Proof.
  destruct s as [ | c rest]; cbn [split_comma]; [discriminate | ].
  destruct (Ascii.eqb c ","); [discriminate | ].
  destruct (split_comma rest); discriminate.
Qed.

Lemma split_comma_free (a : string) :
  comma_free a = true -> split_comma a = [a].
Proof.
  induction a as [ | c a IH]; cbn [comma_free split_comma]; [reflexivity | ].
  intros H. apply andb_true_iff in H as [Hc Ha].
  apply negb_true_iff in Hc. rewrite Hc, (IH Ha). reflexivity.
Qed.

Lemma split_comma_app (a s : string) :
  comma_free a = true ->
  split_comma (a ++ String "," s) = a :: split_comma s.
Proof.
  induction a as [ | c a IH]; cbn [comma_free split_comma append].
  - intros _. reflexivity.
  - intros H. apply andb_true_iff in H as [Hc Ha].
    apply negb_true_iff in Hc. rewrite Hc, (IH Ha). reflexivity.
Qed.

Lemma endswith_app (c : string) (x y : ascii) :
  endswith (c ++ String x "") y = Ascii.eqb x y.
Proof.
  induction c as [ | a c IH]; cbn [append endswith]; [reflexivity | ].
  destruct (c ++ String x "")%string eqn:Hc; [ | exact IH].
  destruct c; discriminate.
Qed.

Lemma drop_last_app (c : string) (x : ascii) :
  drop_last (c ++ String x "") = c.
Proof.
  induction c as [ | a c IH]; cbn [append drop_last]; [reflexivity | ].
  destruct (c ++ String x "")%string eqn:Hc.
  - destruct c; discriminate.
  - rewrite IH. reflexivity.
Qed.

(** X18: for [-o a,b] the observer point gets elevation 0; for [-o a,b,c]
    the third piece gives the elevation: followed by the letter f it is
    read as feet and multiplied by 0.3048, followed by the letter m or by
    nothing it is taken as metres.  Here a, b, c hold no comma and [float]
    reads them once stripped. *)
Theorem observer_argument_elevation
    (float_of_string : string -> option R) (strip : string -> string)
    (a b : string) (lat lon : R) :
  comma_free a = true -> comma_free b = true ->
  float_of_string (strip a) = Some lat ->
  float_of_string (strip b) = Some lon ->
  observer_point_of float_of_string strip (Some (a ++ "," ++ b)%string)
    = ArgPoint (Some (mkWaypoint "Observer" lat lon 0)) /\
  forall c x,
    comma_free c = true -> float_of_string (strip c) = Some x ->
    observer_point_of float_of_string strip (Some (a ++ "," ++ b ++ "," ++ c ++ "f")%string)
      = ArgPoint (Some (mkWaypoint "Observer" lat lon (x * 0.3048))) /\
    observer_point_of float_of_string strip (Some (a ++ "," ++ b ++ "," ++ c ++ "m")%string)
      = ArgPoint (Some (mkWaypoint "Observer" lat lon x)) /\
    (endswith c "f" = false -> endswith c "m" = false ->
     observer_point_of float_of_string strip (Some (a ++ "," ++ b ++ "," ++ c)%string)
       = ArgPoint (Some (mkWaypoint "Observer" lat lon x))).
Proof.
  intros Ha Hb Hlat Hlon.
  assert (Hnonempty : forall s, String.eqb (a ++ String "," s) "" = false).
  { intros s. destruct a; reflexivity. }
  assert (Hfree : forall c y, comma_free c = true -> Ascii.eqb y "," = false ->
                              comma_free (c ++ String y "") = true).
  { intros c y Hc Hy. induction c as [ | k c IH]; cbn [append comma_free] in *.
    - rewrite Hy. reflexivity.
    - apply andb_true_iff in Hc as [Hk Hc]. rewrite Hk, (IH Hc). reflexivity. }
  split.
  - unfold observer_point_of.
    change (a ++ "," ++ b)%string with (a ++ String "," b)%string.
    rewrite Hnonempty, (split_comma_app a b Ha), (split_comma_free b Hb).
    cbn [nth_error]. rewrite Hlat, Hlon. reflexivity.
  - intros c x Hc Hx. repeat split.
    + unfold observer_point_of.
      change (a ++ "," ++ b ++ "," ++ c ++ "f")%string
        with (a ++ String "," (b ++ String "," (c ++ String "f" "")))%string.
      rewrite Hnonempty, (split_comma_app a _ Ha), (split_comma_app b _ Hb).
      rewrite (split_comma_free _ (Hfree c "f"%char Hc eq_refl)).
      cbn [nth_error]. rewrite Hlat, Hlon, endswith_app, drop_last_app, Hx.
      reflexivity.
    + unfold observer_point_of.
      change (a ++ "," ++ b ++ "," ++ c ++ "m")%string
        with (a ++ String "," (b ++ String "," (c ++ String "m" "")))%string.
      rewrite Hnonempty, (split_comma_app a _ Ha), (split_comma_app b _ Hb).
      rewrite (split_comma_free _ (Hfree c "m"%char Hc eq_refl)).
      cbn [nth_error]. rewrite Hlat, Hlon, !endswith_app, drop_last_app, Hx.
      reflexivity.
    + intros Hf Hm. unfold observer_point_of.
      change (a ++ "," ++ b ++ "," ++ c)%string
        with (a ++ String "," (b ++ String "," c))%string.
      rewrite Hnonempty, (split_comma_app a _ Ha), (split_comma_app b _ Hb).
      rewrite (split_comma_free _ Hc).
      cbn [nth_error]. rewrite Hlat, Hlon, Hf, Hm, Hx. reflexivity.
Qed.

Lemma observer_argument_elevation_witness :
  observer_point_of float_of_digits (fun s => s) (Some "34,103,1650f"%string)
    = ArgPoint (Some (mkWaypoint "Observer" (INR 34) (INR 103) (INR 1650 * 0.3048))).
Proof.
  destruct (observer_argument_elevation float_of_digits (fun s => s)
              "34" "103" (INR 34) (INR 103)) as [_ H];
    [reflexivity | reflexivity | reflexivity | reflexivity | ].
  destruct (H "1650"%string (INR 1650)) as [Hf _]; [reflexivity | reflexivity | ].
  exact Hf.
Defined.

(** X19: an [-o] argument without a comma never yields an observer point:
    lines 210-225 end with the [ValueError] of [float] when the argument
    is not a number, and with an [IndexError] at [floats[1]] when it is; an
    empty argument counts as no [-o] at all. *)
Theorem observer_argument_single_piece
    (float_of_string : string -> option R) (strip : string -> string) (a : string) :
  comma_free a = true -> a <> EmptyString ->
  (float_of_string (strip a) = None ->
   exists msg, observer_point_of float_of_string strip (Some a)
               = ArgRaise (ValueError msg)) /\
  (float_of_string (strip a) <> None ->
   exists msg, observer_point_of float_of_string strip (Some a)
               = ArgIndexError msg) /\
  observer_point_of float_of_string strip (Some EmptyString) = ArgPoint None.
Proof.
  intros Ha Hne. unfold observer_point_of.
  assert (Heq : String.eqb a "" = false).
  { apply String.eqb_neq. assumption. }
  rewrite Heq, (split_comma_free a Ha). cbn [nth_error].
  split; [ | split].
  - intros ->. eauto.
  - intros H. destruct (float_of_string (strip a)); [eauto | contradiction].
  - reflexivity.
Qed.

Lemma observer_argument_single_piece_witness :
  exists msg, observer_point_of float_of_digits (fun s => s) (Some "34"%string)
              = ArgIndexError msg.
Proof.
  destruct (observer_argument_single_piece float_of_digits (fun s => s) "34"%string)
    as (_ & H & _); [reflexivity | discriminate | ].
  apply H. discriminate.
Defined.

(** ** One unusable file among several *)

Section MainFails.
Context {E : Ephemeris}.
Variable float_of_string : string -> option R.
Variable parse : string -> Result Document.

Lemma load_files_fails gpxfiles :
  forall waypoints observerPoint out,
  (exists filename, In filename gpxfiles /\ file_fails float_of_string parse filename) ->
  exists e,
    load_files float_of_string parse gpxfiles waypoints observerPoint out
      = (out, Raise e).
Proof.
  induction gpxfiles as [ | f rest IH]; intros waypoints observerPoint out
    (filename & Hin & Hbad).
  - destruct Hin.
  - cbn [load_files].
    destruct (parse f) as [dom | e] eqn:Hparse; [ | cbn [bind]; eauto].
    cbn [bind].
    destruct (read_track_file_GPX float_of_string dom) as [[ | obs wp] | e] eqn:Hload;
      [cbn [bind unpack2]; eauto | | cbn [bind]; eauto].
    cbn [bind unpack2].
    pose proof (loader_pair_nonempty _ _ _ _ Hload) as Hne.
    destruct wp as [ | w wp]; [contradiction | ].
    apply IH. destruct Hin as [<- | Hin]; [ | eauto].
    exfalso. destruct Hbad as [(e & He) | (dom' & Hd & [Hnone | (e & He)])].
    + congruence.
    + assert (dom' = dom) by congruence. subst dom'.
      unfold read_track_file_GPX in Hload. rewrite Hnone in Hload. discriminate.
    + assert (dom' = dom) by congruence. subst dom'. congruence.
Qed.

End MainFails.

(** X20: when one of the files on the command line does not parse, holds
    no [<wpt>] element or makes the loader raise, the whole run ends with
    an uncaught exception before anything is printed, also when the files
    before it held waypoints. *)
Theorem one_unusable_file_stops_the_run {E : Ephemeris}
    (float_of_string : string -> option R) (parse : string -> Result Document)
    (clock : nat -> R) (this_year : Z) (today : R) (observerPoint : option Waypoint)
    (gpxfiles : list string) (filename : string) :
  In filename gpxfiles ->
  file_fails float_of_string parse filename ->
  exists e,
    main float_of_string parse clock this_year today observerPoint gpxfiles
      = ([], Uncaught e).
Proof.
  intros Hin Hbad. unfold main.
  destruct (load_files_fails float_of_string parse gpxfiles []
              (option_map ObsList observerPoint) []) as (e & ->); [eauto | ].
  eauto.
Qed.

Lemma one_unusable_file_stops_the_run_witness :
  exists e,
    @main toy_ephem float_of_digits example_parse_empty (fun _ => 0) 2024 45000 None
       ["two.gpx"; "empty.gpx"]%string
      = ([], Uncaught e).
Proof.
  apply (@one_unusable_file_stops_the_run toy_ephem float_of_digits example_parse_empty
           (fun _ => 0) 2024%Z 45000 None ["two.gpx"; "empty.gpx"]%string
           "empty.gpx"%string).
  - right. left. reflexivity.
  - right. exists empty_gpx. split; [reflexivity | left; reflexivity].
Defined.
